(** * Image_Video_Converter: the upload / validate / convert / clean-up script

    A shallow embedding of [app.py].  The script is a Streamlit page: on each
    run it renders two file uploaders and a bitrate select box and, when the
    "Generate Video" button is pressed, writes the two uploads under [temp/],
    runs [ffmpeg] through [subprocess.run], offers the result for download and
    removes the three files it derived for the job.

    The file system, the child process and the page are modelled explicitly:
    - the file system is a finite map from path strings to file contents;
    - everything the operating system decides (whether [ffmpeg] resolves,
      what the child process does, whether a write or a removal faults, the
      random bytes behind [uuid.uuid4]) is a field of a [world] record, so
      every theorem quantifies over all behaviours of the environment;
    - Python exceptions are the [Raise] outcome of a small state-and-exception
      monad; the state survives a raise, as side effects do.

    Strings are sequences of 8-bit characters and [lower] acts on A-Z.
    A directory is a path of the file system that holds no contents: the
    only one the script handles is [temp], which it creates when missing; a
    write under a missing directory is one of the faults a write can meet. *)

From Stdlib Require Import ZArith NArith Ascii String List Lia Bool.
From stdpp Require Import base strings gmap vector fin.

Open Scope Z_scope.

#[local] Arguments String.append !s1 s2.

(** ** Python string operations used by the script *)

Module Py.

(** [s.rfind(c)]: the highest index of [c] in [s], or [-1]. *)
Fixpoint rfind (s : string) (c : ascii) : Z :=
  match s with
  | EmptyString => -1
  | String a s' =>
      let r := rfind s' c in
      if 0 <=? r then r + 1 else if Ascii.eqb a c then 0 else -1
  end.

(** [s[:n]] for [0 <= n]. *)
Fixpoint take (n : nat) (s : string) : string :=
  match n, s with
  | S n', String a s' => String a (take n' s')
  | _, _ => EmptyString
  end.

(** [s[n:]] for [0 <= n]. *)
Fixpoint drop (n : nat) (s : string) : string :=
  match n, s with
  | S n', String _ s' => drop n' s'
  | _, _ => s
  end.

(** [s[lo:hi]] for [0 <= lo <= hi]. *)
Definition slice (s : string) (lo hi : nat) : string :=
  take (hi - lo) (drop lo s).

Definition lower_char (c : ascii) : ascii :=
  let n := nat_of_ascii c in
  if (65 <=? n)%nat && (n <=? 90)%nat then ascii_of_nat (n + 32) else c.

(** [s.lower()]. *)
Fixpoint lower (s : string) : string :=
  match s with
  | EmptyString => EmptyString
  | String a s' => String (lower_char a) (lower s')
  end.

(** [x in l] for a list of strings. *)
Definition elem (x : string) (l : list string) : bool :=
  existsb (String.eqb x) l.

End Py.

(** ** [os.path.splitext] *)

(** The two flavours of [os.path]: [posixpath] and [ntpath]. *)
Inductive flavour := Posix | Nt.

Definition slash : ascii := ascii_of_nat 47.
Definition backslash : ascii := ascii_of_nat 92.
Definition dot : ascii := ascii_of_nat 46.

Definition sep (os : flavour) : ascii :=
  match os with Posix => slash | Nt => backslash end.

Definition altsep (os : flavour) : option ascii :=
  match os with Posix => None | Nt => Some slash end.

Definition extsep : ascii := dot.

(** The [while filenameIndex < dotIndex] loop of [genericpath._splitext]:
    [todo] is [dotIndex - filenameIndex]; the result is [true] when the loop
    returns the split, [false] when it runs off its end. *)
Fixpoint splitext_scan (p : string) (ext_sep : ascii)
    (filenameIndex todo : nat) : bool :=
  match todo with
  | O => false
  | S todo' =>
      if negb (String.eqb (Py.slice p filenameIndex (S filenameIndex))
                          (String ext_sep EmptyString))
      then true
      else splitext_scan p ext_sep (S filenameIndex) todo'
  end.

(** [genericpath._splitext(p, sep, altsep, extsep)]. *)
Definition _splitext (p : string) (sep_c : ascii) (altsep_c : option ascii)
    (ext_sep : ascii) : string * string :=
  let sepIndex := Py.rfind p sep_c in
  let sepIndex :=
    match altsep_c with
    | Some a => Z.max sepIndex (Py.rfind p a)
    | None => sepIndex
    end in
  let dotIndex := Py.rfind p ext_sep in
  if (sepIndex <? dotIndex)
     && splitext_scan p ext_sep (Z.to_nat (sepIndex + 1))
          (Z.to_nat (dotIndex - (sepIndex + 1)))
  then (Py.take (Z.to_nat dotIndex) p, Py.drop (Z.to_nat dotIndex) p)
  else (p, EmptyString).

Definition splitext (os : flavour) (p : string) : string * string :=
  _splitext p (sep os) (altsep os) extsep.

(** ** Extension validation (lines 95-100) *)

Definition image_exts : list string := [".png"; ".jpg"; ".jpeg"].
Definition audio_exts : list string := [".mp3"; ".mpeg"].

Definition image_ext (os : flavour) (name : string) : string :=
  Py.lower (snd (splitext os name)).

Definition audio_ext (os : flavour) (name : string) : string :=
  Py.lower (snd (splitext os name)).

Inductive validation := InvalidImage | InvalidAudio | Valid.

Definition validate (os : flavour) (image_name audio_name : string)
    : validation :=
  if negb (Py.elem (image_ext os image_name) image_exts) then InvalidImage
  else if negb (Py.elem (audio_ext os audio_name) audio_exts) then InvalidAudio
  else Valid.

(** ** [uuid.uuid4] and [str] of a UUID *)

Module Uuid.

(** A [UUID] object holds its 128-bit value in [int]. *)
Record UUID := { int : N }.

Definition hex_digit (d : N) : ascii :=
  match String.get (N.to_nat d) "0123456789abcdef" with
  | Some c => c
  | None => "0"%char
  end.

(** ['%0kx' % n] for [n < 16^k]: [k] hexadecimal digits, most significant
    first. *)
Fixpoint hex_fmt (k : nat) (n : N) : string :=
  match k with
  | O => EmptyString
  | S k' =>
      String (hex_digit ((n / 16 ^ N.of_nat k') mod 16)%N) (hex_fmt k' n)
  end.

(** [UUID(bytes=os.urandom(16), version=4)]: [random16] is the integer read
    from the sixteen random bytes; the variant and version bits are then
    forced. *)
Definition uuid4 (random16 : N) : UUID :=
  let i := (random16 mod 2 ^ 128)%N in
  let i := N.ldiff i (N.shiftl 0xc000 48) in
  let i := N.lor i (N.shiftl 0x8000 48) in
  let i := N.ldiff i (N.shiftl 0xf000 64) in
  let i := N.lor i (N.shiftl 4 76) in
  {| int := i |}.

(** [UUID.__str__]: the 32 digits grouped 8-4-4-4-12. *)
Definition str (u : UUID) : string :=
  let hex := hex_fmt 32 (int u) in
  Py.slice hex 0 8 +:+ "-" +:+ Py.slice hex 8 12 +:+ "-" +:+
  Py.slice hex 12 16 +:+ "-" +:+ Py.slice hex 16 20 +:+ "-" +:+
  Py.drop 20 hex.

End Uuid.

(** ** The environment: file system, child process, page *)

Abbreviation bytes := (list Byte.byte).

(** The exceptions that can travel through the script. *)
Inductive exn :=
| FileNotFoundError (filename : string)
| CalledProcessError (returncode : Z) (cmd : list string)
    (stdout stderr : string)
| OSError (strerror : string)
| UnicodeDecodeError (object : bytes)
| PyException (class_name message : string).

(** What starting the child process of [subprocess.run] meets: either the
    child cannot be started (the exception [Popen] raises), or it runs,
    leaves the file system as [fs'] and exits with [returncode], the bytes
    it wrote to its two output streams captured separately. *)
Inductive spawn_result :=
| SpawnError (e : exn)
| Exited (returncode : Z) (stdout stderr : bytes)
    (fs' : gmap string bytes).

(** What [with open(path, "wb") as f: f.write(data)] meets: success, a
    failure of [open] (nothing created), or a failure of [write] after the
    file was created, with [written] left in it. *)
Inductive io_outcome :=
| IoOk
| IoOpenError (e : exn)
| IoWriteError (e : exn) (written : bytes).

Record world := {
  os : flavour;
  which : string → option string;        (* shutil.which *)
  spawn : list string → gmap string bytes → spawn_result;
  decode : bytes → option string;        (* bytes.decode, locale encoding *)
  write_outcome : string → bytes → io_outcome;
  read_fault : string → option exn;      (* open(path, "rb") and read *)
  remove_fault : string → option exn;    (* os.remove *)
  makedirs_fault : string → option exn;  (* os.makedirs *)
  image_fault : bytes → option exn;      (* st.image *)
  random16 : N                           (* os.urandom(16) *)
}.

(** System calls the script makes, in order. *)
Inductive sys_event :=
| EvOpenW (path : string)
| EvOpenR (path : string)
| EvRemove (path : string)
| EvExec (cmd : list string)
| EvMakedirs (path : string).

(** What the page shows.  [Markdown] is [st.markdown] with
    [unsafe_allow_html=True], [PlainMarkdown] is [st.markdown] without. *)
Inductive ui_event :=
| Markdown (body : string)
| Progress (value : Z)
| DownloadButton (label : string) (data : bytes) (file_name mime : string)
| PageConfig (page_title page_icon layout : string)
| PlainMarkdown (body : string)
| Title (body : string)
| Expander (label body : string)
| Image (data : bytes) (caption : string)
| Audio (data : bytes) (format : string).

Record state := mkState {
  fs : gmap string bytes;
  syslog : list sys_event;
  page : list ui_event
}.

Inductive result (A : Type) :=
| Ok (a : A)
| Raise (e : exn).
Arguments Ok {A} a.
Arguments Raise {A} e.

(** State-and-exception monad: the state is kept when an exception is
    raised. *)
Definition M (A : Type) : Type := state → result A * state.

#[global] Instance M_ret : MRet M := λ A a s, (Ok a, s).

#[global] Instance M_bind : MBind M := λ A B f m s,
  match m s with
  | (Ok a, s') => f a s'
  | (Raise e, s') => (Raise e, s')
  end.

Definition raise {A} (e : exn) : M A := λ s, (Raise e, s).

(** [try: body except ...: handler]: [handler e = None] when no [except]
    clause matches [e]. *)
Definition try_except {A} (body : M A) (handler : exn → option (M A)) : M A :=
  λ s,
    match body s with
    | (Ok a, s') => (Ok a, s')
    | (Raise e, s') =>
        match handler e with
        | Some h => h s'
        | None => (Raise e, s')
        end
    end.

Definition log (ev : sys_event) : M unit :=
  λ s, (Ok tt, mkState (fs s) (syslog s ++ [ev]) (page s)).

Definition show (ev : ui_event) : M unit :=
  λ s, (Ok tt, mkState (fs s) (syslog s) (page s ++ [ev])).

Definition set_fs (f : gmap string bytes) : M unit :=
  λ s, (Ok tt, mkState f (syslog s) (page s)).

Definition get_fs : M (gmap string bytes) := λ s, (Ok (fs s), s).

(** [with open(path, "wb") as f: f.write(data)]. *)
Definition write_file (w : world) (path : string) (data : bytes) : M unit :=
  log (EvOpenW path);;
  match write_outcome w path data with
  | IoOpenError e => raise e
  | IoWriteError e written =>
      f ← get_fs; set_fs (<[path := written]> f);; raise e
  | IoOk => f ← get_fs; set_fs (<[path := data]> f)
  end.

(** [with open(path, "rb") as f], the whole file read: a missing file raises
    [FileNotFoundError], and a present one can still fail to open or to be
    read. *)
Definition read_file (w : world) (path : string) : M bytes :=
  log (EvOpenR path);;
  f ← get_fs;
  match f !! path with
  | Some data =>
      match read_fault w path with
      | Some e => raise e
      | None => mret data
      end
  | None => raise (FileNotFoundError path)
  end.

(** [os.path.exists(path)]. *)
Definition os_path_exists (path : string) : M bool :=
  f ← get_fs; mret (bool_decide (is_Some (f !! path))).

(** [os.remove(path)]. *)
Definition os_remove (w : world) (path : string) : M unit :=
  log (EvRemove path);;
  match remove_fault w path with
  | Some e => raise e
  | None => f ← get_fs; set_fs (delete path f)
  end.

(** [os.makedirs(path)]: the directory is a path that holds no contents. *)
Definition os_makedirs (w : world) (path : string) : M unit :=
  log (EvMakedirs path);;
  match makedirs_fault w path with
  | Some e => raise e
  | None => f ← get_fs; set_fs (<[path := []]> f)
  end.

Definition cr : ascii := ascii_of_nat 13.
Definition lf : ascii := ascii_of_nat 10.

(** [s.replace("\r\n", "\n")]. *)
Fixpoint replace_crlf (s : string) : string :=
  match s with
  | EmptyString => EmptyString
  | String a s' =>
      match s' with
      | String b s'' =>
          if Ascii.eqb a cr && Ascii.eqb b lf
          then String lf (replace_crlf s'')
          else String a (replace_crlf s')
      | EmptyString => String a EmptyString
      end
  end.

(** [s.replace("\r", "\n")]. *)
Fixpoint replace_cr (s : string) : string :=
  match s with
  | EmptyString => EmptyString
  | String a s' =>
      String (if Ascii.eqb a cr then lf else a) (replace_cr s')
  end.

(** [Popen._translate_newlines(data, encoding, errors)]: the captured bytes
    are decoded strictly, then [\r\n] and [\r] become [\n]; [None]
    stands for the [UnicodeDecodeError] of the decoding. *)
Definition _translate_newlines (w : world) (data : bytes) : option string :=
  match decode w data with
  | Some text => Some (replace_cr (replace_crlf text))
  | None => None
  end.

(** [subprocess.run(cmd, check=True, capture_output=True, text=True)]: once
    the child has exited, its captured output is decoded, standard output
    first, and only then is the return code checked. *)
Definition subprocess_run (w : world) (cmd : list string) : M unit :=
  log (EvExec cmd);;
  f ← get_fs;
  match spawn w cmd f with
  | SpawnError e => raise e
  | Exited returncode out err f' =>
      set_fs f';;
      match _translate_newlines w out with
      | None => raise (UnicodeDecodeError out)
      | Some stdout =>
          match _translate_newlines w err with
          | None => raise (UnicodeDecodeError err)
          | Some stderr =>
              if returncode =? 0 then mret tt
              else raise (CalledProcessError returncode cmd stdout stderr)
          end
      end
  end.

(** ** The script *)

Record UploadedFile := { name : string; getbuffer : bytes }.

Definition dquote : string := String (ascii_of_nat 34) EmptyString.

(** [<p class="cls">body</p>], the markup of every message of the page. *)
Definition p_class (cls body : string) : string :=
  "<p class=" +:+ dquote +:+ cls +:+ dquote +:+ ">" +:+ body +:+ "</p>".

Definition markdown (body : string) : M unit := show (Markdown body).
Definition progress (value : Z) : M unit := show (Progress value).
Definition download_button (label : string) (data : bytes)
    (file_name mime : string) : M unit :=
  show (DownloadButton label data file_name mime).

(** [check_ffmpeg]: [shutil.which("ffmpeg") is not None]. *)
Definition check_ffmpeg (w : world) : bool :=
  bool_decide (is_Some (which w "ffmpeg")).

(** The argument list built at lines 32-37. *)
Definition ffmpeg_cmd (image_path audio_path output_path bitrate : string)
    : list string :=
  [ "ffmpeg"; "-y"; "-loop"; "1"; "-i"; image_path;
    "-i"; audio_path; "-c:v"; "libx264"; "-tune"; "stillimage";
    "-c:a"; "aac"; "-b:a"; bitrate; "-pix_fmt"; "yuv420p";
    "-shortest"; output_path ].

Definition success_message : string := "Video created successfully!".

Definition not_found_message : string :=
  "FFmpeg not found. Please ensure FFmpeg is installed and added to your system PATH.".

Definition convert_image_to_video (w : world)
    (image_path audio_path output_path bitrate : string)
    : M (bool * string) :=
  try_except
    (let cmd := ffmpeg_cmd image_path audio_path output_path bitrate in
     subprocess_run w cmd;;
     mret (true, success_message))
    (λ e,
       match e with
       | CalledProcessError _ _ _ stderr =>
           Some (mret (false, "FFmpeg Error: " +:+ stderr))
       | FileNotFoundError _ => Some (mret (false, not_found_message))
       | _ => None
       end).

(** The three paths of a job (lines 106-108). *)
Definition temp_image_path (unique_id image_name : string) : string :=
  "temp/" +:+ unique_id +:+ "_" +:+ image_name.

Definition temp_audio_path (unique_id audio_name : string) : string :=
  "temp/" +:+ unique_id +:+ "_" +:+ audio_name.

Definition output_path (unique_id : string) : string :=
  "temp/output_" +:+ unique_id +:+ ".mp4".

Definition job_paths (unique_id image_name audio_name : string)
    : list string :=
  [ temp_image_path unique_id image_name;
    temp_audio_path unique_id audio_name;
    output_path unique_id ].

(** The clean-up loop (lines 137-139). *)
Fixpoint remove_existing (w : world) (paths : list string) : M unit :=
  match paths with
  | [] => mret tt
  | path :: rest =>
      present ← os_path_exists path;
      (if present : bool then os_remove w path else mret tt);;
      remove_existing w rest
  end.

(** Lines 102-139: the job proper, entered once both uploads are present,
    [ffmpeg] was found on the path and both extensions were accepted. *)
Definition run_job (w : world) (image_file audio_file : UploadedFile)
    (bitrate : string) : M unit :=
  progress 0;;
  let unique_id := Uuid.str (Uuid.uuid4 (random16 w)) in
  let image_path := temp_image_path unique_id (name image_file) in
  let audio_path := temp_audio_path unique_id (name audio_file) in
  let out_path := output_path unique_id in
  write_file w image_path (getbuffer image_file);;
  write_file w audio_path (getbuffer audio_file);;
  progress 50;;
  r ← convert_image_to_video w image_path audio_path out_path bitrate;
  let '(success, message) := r : bool * string in
  progress 100;;
  (if success then
     markdown (p_class "success-message" "Video created successfully!");;
     data ← read_file w out_path;
     download_button "Download Video" data "output.mp4" "video/mp4"
   else
     markdown (p_class "error-message" message));;
  remove_existing w [image_path; audio_path; out_path].

Definition msg_upload_both : string :=
  p_class "error-message"
    "Please upload both an image (PNG/JPG) and an audio (MP3) file.".
Definition msg_cannot_proceed : string :=
  p_class "error-message"
    "Cannot proceed: FFmpeg is not installed. Please follow the installation instructions above.".
Definition msg_invalid_image : string :=
  p_class "error-message"
    "Invalid image file. Please upload a PNG or JPG file.".
Definition msg_invalid_audio : string :=
  p_class "error-message" "Invalid audio file. Please upload an MP3 file.".
Definition msg_not_installed : string :=
  p_class "error-message"
    "FFmpeg is not installed or not found in your system PATH. Please install FFmpeg following the instructions above.".

(** Lines 89-139: the body of [if st.button("Generate Video")]. *)
Definition generate (w : world) (image_file audio_file : option UploadedFile)
    (bitrate : string) : M unit :=
  match image_file, audio_file with
  | Some image_file, Some audio_file =>
      if negb (check_ffmpeg w) then markdown msg_cannot_proceed
      else
        match validate (os w) (name image_file) (name audio_file) with
        | InvalidImage => markdown msg_invalid_image
        | InvalidAudio => markdown msg_invalid_audio
        | Valid => run_job w image_file audio_file bitrate
        end
  | _, _ => markdown msg_upload_both
  end.

(** The options of the bitrate select box (line 85). *)
Definition bitrate_options : vec string 4 :=
  [# "128k"; "192k"; "256k"; "320k"].

(** [st.selectbox(label, options)]: the widget returns the option at the
    position the user picked. *)
Definition selectbox {n} (options : vec string n) (picked : fin n) : string :=
  options !!! picked.

(** What the user did on the page before this run of the script. *)
Record session := {
  image_upload : option UploadedFile;
  audio_upload : option UploadedFile;
  bitrate_pick : fin 4;
  generate_clicked : bool
}.

Definition nl : string := String lf EmptyString.

(** The style sheet of lines 12-23. *)
Definition style_sheet : string :=
  EmptyString +:+ nl +:+
  "<style>" +:+ nl +:+
  "    .main { background-color: #f0f2f6; }" +:+ nl +:+
  "    .stButton>button { background-color: #4CAF50; color: white; border-radius: 8px; }" +:+ nl +:+
  "    .stButton>button:hover { background-color: #45a049; }" +:+ nl +:+
  "    .stFileUploader { background-color: white; padding: 10px; border-radius: 8px; }" +:+ nl +:+
  "    .stSelectbox { margin-bottom: 20px; }" +:+ nl +:+
  "    .success-message { color: #2e7d32; font-weight: bold; }" +:+ nl +:+
  "    .error-message { color: #d32f2f; font-weight: bold; }" +:+ nl +:+
  "    .preview-container { border: 1px solid #ddd; padding: 10px; border-radius: 8px; }" +:+ nl +:+
  "</style>" +:+ nl +:+
  EmptyString.

(** The help text of lines 55-65. *)
Definition help_text : string :=
  EmptyString +:+ nl +:+
  "    **FFmpeg is required to run this application.**  " +:+ nl +:+
  "    If you encounter an error, follow these steps to install FFmpeg on Windows:" +:+ nl +:+
  "    1. Download FFmpeg from [https://www.gyan.dev/ffmpeg/builds/](https://www.gyan.dev/ffmpeg/builds/) (choose a release like `ffmpeg-release-essentials.zip`)." +:+ nl +:+
  "    2. Extract the zip file to a folder (e.g., `C:\ffmpeg`)." +:+ nl +:+
  "    3. Add the FFmpeg `bin` folder to your system PATH:" +:+ nl +:+
  "       - Right-click 'This PC' > Properties > Advanced system settings > Environment Variables." +:+ nl +:+
  "       - Under 'System variables' or 'User variables,' find `Path`, edit, and add the path to the `bin` folder (e.g., `C:\ffmpeg\bin`)." +:+ nl +:+
  "    4. Verify installation by opening a Command Prompt and running `ffmpeg -version`." +:+ nl +:+
  "    If installed correctly, you'll see FFmpeg version information." +:+ nl +:+
  "    ".

(** Lines 46-47: [if not os.path.exists("temp"): os.makedirs("temp")]. *)
Definition ensure_temp (w : world) : M unit :=
  present ← os_path_exists "temp";
  if present : bool then mret tt else os_makedirs w "temp".

(** [st.image(image_file, caption=...)]: the upload is decoded for the
    preview, which can raise. *)
Definition st_image (w : world) (image_file : UploadedFile) (caption : string)
    : M unit :=
  match image_fault w (getbuffer image_file) with
  | Some e => raise e
  | None => show (Image (getbuffer image_file) caption)
  end.

(** One run of the script, top to bottom. *)
Definition app (w : world) (ss : session) : M unit :=
  show (PageConfig "Image to Video Converter" "🎥" "wide");;
  markdown style_sheet;;
  ensure_temp w;;
  show (Title "🎥 Image to Video Converter");;
  show (PlainMarkdown
          "Combine an image (PNG/JPG) and audio (MP3) file to create a video using FFmpeg.");;
  show (Expander "ℹ️ How to Install FFmpeg" help_text);;
  (if negb (check_ffmpeg w) then markdown msg_not_installed else mret tt);;
  match image_upload ss with
  | Some image_file =>
      show (PlainMarkdown "**Image Preview**");;
      st_image w image_file "Uploaded Image"
  | None => mret tt
  end;;
  match audio_upload ss with
  | Some audio_file =>
      show (PlainMarkdown "**Audio Preview**");;
      show (Audio (getbuffer audio_file) "audio/mpeg")
  | None => mret tt
  end;;
  let bitrate := selectbox bitrate_options (bitrate_pick ss) in
  (if generate_clicked ss
   then generate w (image_upload ss) (audio_upload ss) bitrate
   else mret tt);;
  show (PlainMarkdown "---");;
  show (PlainMarkdown "Built with Streamlit and FFmpeg | © 2025").

Definition state0 : state := mkState ∅ [] [].

(** ** Notions used in the statements *)

(** [c] is one of the sixteen digits [hex_digit] prints. *)
Definition is_hex (c : ascii) : bool :=
  existsb (Ascii.eqb c) (list_ascii_of_string "0123456789abcdef").

(** Unfolds one layer of the monad and of the page primitives. *)
Ltac mstep :=
  cbv [mbind M_bind mret M_ret raise log show set_fs get_fs markdown progress
       download_button try_except];
  cbn [fs syslog page fst snd].

(** Membership in a list that is written out. *)
Ltac in_list := solve [repeat constructor].

(** [s] after the system call [ev], the file system unchanged. *)
Definition logged (ev : sys_event) (s : state) : state :=
  mkState (fs s) (syslog s ++ [ev]) (page s).

(** The system call is an [os.remove]. *)
Definition is_remove (ev : sys_event) : Prop := ∃ p, ev = EvRemove p.

(** The token of the job a run of the script starts in world [w]. *)
Definition job_id (w : world) : string := Uuid.str (Uuid.uuid4 (random16 w)).

(** The state in which [convert_image_to_video] is called. *)
Definition after_writes (w : world) (img aud : UploadedFile) (s : state)
    : state :=
  let ip := temp_image_path (job_id w) (name img) in
  let ap := temp_audio_path (job_id w) (name aud) in
  mkState (<[ap := getbuffer aud]> (<[ip := getbuffer img]> (fs s)))
    (syslog s ++ [EvOpenW ip; EvOpenW ap])
    (page s ++ [Progress 0; Progress 50]).

(** What [convert_image_to_video] returns once the child has exited with
    [returncode] and its output was captured as [out] and [err]. *)
Definition after_exit (w : world) (returncode : Z) (out err : bytes)
    : result (bool * string) :=
  match _translate_newlines w out with
  | None => Raise (UnicodeDecodeError out)
  | Some stdout =>
      match _translate_newlines w err with
      | None => Raise (UnicodeDecodeError err)
      | Some stderr =>
          if returncode =? 0 then Ok (true, success_message)
          else Ok (false, "FFmpeg Error: " +:+ stderr)
      end
  end.

(** The success message as the page shows it (line 125). *)
Definition msg_success : string :=
  p_class "success-message" "Video created successfully!".

(** ** Worlds and uploads used as concrete inputs *)

(** The bytes of a text of 8-bit characters, and the two codecs used below:
    one that decodes every byte, one that refuses bytes above 127. *)
Definition encode (s : string) : bytes := String.list_byte_of_string s.

Definition latin1_decode (data : bytes) : option string :=
  Some (String.string_of_list_byte data).

Definition ascii_decode (data : bytes) : option string :=
  if forallb (λ b, (Byte.to_N b <? 128)%N) data
  then Some (String.string_of_list_byte data) else None.

(** A child process that writes [data] to the last argument of its command
    line and exits with status 0. *)
Definition stub_encoder (data : bytes) (cmd : list string)
    (f : gmap string bytes) : spawn_result :=
  Exited 0 [] (encode "frame=1") (<[List.last cmd EmptyString := data]> f).

(** A child process that writes nothing and exits with [returncode],
    having printed [stdout] and [stderr]. *)
Definition stub_failing (returncode : Z) (stdout stderr : string)
    (cmd : list string) (f : gmap string bytes) : spawn_result :=
  Exited returncode (encode stdout) (encode stderr) f.

(** A child process that writes nothing to the file system, prints the
    single byte [0xff] on its standard error and exits with [returncode]. *)
Definition stub_garbled (returncode : Z) (cmd : list string)
    (f : gmap string bytes) : spawn_result :=
  Exited returncode [] [Byte.xff] f.

(** No executable to start. *)
Definition stub_absent (cmd : list string) (f : gmap string bytes)
    : spawn_result :=
  SpawnError (FileNotFoundError "ffmpeg").

(** A world with [ffmpeg] on the path, no i/o fault and child process [sp]. *)
Definition quiet_world (sp : list string → gmap string bytes → spawn_result)
    : world :=
  {| os := Posix;
     which := λ _, Some "/usr/bin/ffmpeg";
     spawn := sp;
     decode := latin1_decode;
     write_outcome := λ _ _, IoOk;
     read_fault := λ _, None;
     remove_fault := λ _, None;
     makedirs_fault := λ _, None;
     image_fault := λ _, None;
     random16 := 0 |}.


(** Two small uploads. *)
Definition cover_png : UploadedFile :=
  {| name := "cover.png"; getbuffer := [Byte.x89; Byte.x50] |}.
Definition song_mp3 : UploadedFile :=
  {| name := "song.mp3"; getbuffer := [Byte.x49; Byte.x44; Byte.x33] |}.

(** [c * n]. *)
Fixpoint replicate_char (n : nat) (c : ascii) : string :=
  match n with
  | O => EmptyString
  | S n' => String c (replicate_char n' c)
  end.



(** A job is started when both uploads are present, [ffmpeg] is on the path
    and both extensions are accepted. *)
Definition started (w : world) (image_file audio_file : option UploadedFile)
    : Prop :=
  ∃ img aud, image_file = Some img ∧ audio_file = Some aud
             ∧ check_ffmpeg w = true
             ∧ validate (os w) (name img) (name aud) = Valid.



(** The exception a write raises, if any. *)
Definition io_error (o : io_outcome) : option exn :=
  match o with
  | IoOk => None
  | IoOpenError e => Some e
  | IoWriteError e _ => Some e
  end.

(** Writing one of the two uploads raises [e]. *)
Definition write_fails (w : world) (img aud : UploadedFile) (e : exn) : Prop :=
  let ip := temp_image_path (job_id w) (name img) in
  let ap := temp_audio_path (job_id w) (name aud) in
  io_error (write_outcome w ip (getbuffer img)) = Some e
  ∨ (write_outcome w ip (getbuffer img) = IoOk
     ∧ io_error (write_outcome w ap (getbuffer aud)) = Some e).

(** The system calls a job can make. *)
Definition job_event (w : world) (img aud : UploadedFile) (bitrate : string)
    (ev : sys_event) : Prop :=
  let ip := temp_image_path (job_id w) (name img) in
  let ap := temp_audio_path (job_id w) (name aud) in
  let op := output_path (job_id w) in
  ev ∈ [EvOpenW ip; EvOpenW ap; EvExec (ffmpeg_cmd ip ap op bitrate);
        EvOpenR op; EvRemove ip; EvRemove ap; EvRemove op].

(** Every system call of [m], from whatever state, satisfies [P]. *)
Definition only_calls {A} (P : sys_event → Prop) (m : M A) : Prop :=
  ∀ s, ∃ evs, syslog (m s).2 = syslog s ++ evs ∧ Forall P evs.

(** [c in s]. *)
Fixpoint contains (s : string) (c : ascii) : bool :=
  match s with
  | EmptyString => false
  | String a s' => Ascii.eqb a c || contains s' c
  end.

(** Some character of [s] is a path separator of the flavour. *)
Definition has_sep (os : flavour) (s : string) : bool :=
  contains s (sep os)
  || match altsep os with Some a => contains s a | None => false end.

(** [dir] is empty or ends in a path separator of the flavour: what
    precedes the last component of a path. *)
Definition is_dir_prefix (os : flavour) (dir : string) : Prop :=
  dir = EmptyString
  ∨ ∃ d c, dir = d +:+ String c EmptyString
           ∧ (c = sep os ∨ altsep os = Some c).

(** The text from the last dot of a name on; empty when there is no dot. *)
Definition final_suffix (name : string) : string :=
  if 0 <=? Py.rfind name dot
  then Py.drop (Z.to_nat (Py.rfind name dot)) name
  else EmptyString.

(** The character codes of the letters: A-Z are 65-90 and a-z are 97-122. *)
Definition is_upper_code (n : nat) : bool := (65 <=? n)%nat && (n <=? 90)%nat.

(** [c] is an upper-case letter and [d] the same letter in lower case. *)
Definition cased_pair (c d : ascii) : bool :=
  is_upper_code (nat_of_ascii c)
  && (nat_of_ascii d =? nat_of_ascii c + 32)%nat.

(** The same character, or the same letter in the other case. *)
Definition same_letter (c d : ascii) : bool :=
  Ascii.eqb c d || cased_pair c d || cased_pair d c.

(** Character by character, the same letters in whatever case. *)
Fixpoint eqb_nocase (a b : string) : bool :=
  match a, b with
  | EmptyString, EmptyString => true
  | String c a', String d b' => same_letter c d && eqb_nocase a' b'
  | _, _ => false
  end.

(** The 256 characters. *)
Definition all_ascii : list ascii := List.map ascii_of_nat (List.seq 0 256).

(** Two strings are equal up to the case of their letters. *)
Definition eq_nocase (a b : string) : Prop := eqb_nocase a b = true.

(** [ext] is, up to case, one of [exts]. *)
Definition accepted (exts : list string) (ext : string) : Prop :=
  ∃ e, e ∈ exts ∧ eq_nocase ext e.

(** ** Notions used for the rest of the script *)

(** The system call starts a child process. *)
Definition is_exec (ev : sys_event) : bool :=
  match ev with
  | EvExec _ => true
  | _ => false
  end.

(** The command line of the job a run starts in world [w]. *)
Definition job_cmd (w : world) (img aud : UploadedFile) (bitrate : string)
    : list string :=
  ffmpeg_cmd (temp_image_path (job_id w) (name img))
    (temp_audio_path (job_id w) (name aud))
    (output_path (job_id w)) bitrate.

(** A child process that cannot be started for a reason other than a
    missing executable. *)
Definition stub_denied (cmd : list string) (f : gmap string bytes)
    : spawn_result :=
  SpawnError (OSError "Permission denied").

(** A world without write faults in which no file can be removed. *)
Definition sticky_world (sp : list string → gmap string bytes → spawn_result)
    : world :=
  {| os := Posix;
     which := λ _, Some "/usr/bin/ffmpeg";
     spawn := sp;
     decode := latin1_decode;
     write_outcome := λ _ _, IoOk;
     read_fault := λ _, None;
     remove_fault := λ _, Some (OSError "Device or resource busy");
     makedirs_fault := λ _, None;
     image_fault := λ _, None;
     random16 := 0 |}.

(** A world without i/o faults whose locale encoding is ASCII. *)
Definition strict_world (sp : list string → gmap string bytes → spawn_result)
    : world :=
  {| os := Posix;
     which := λ _, Some "/usr/bin/ffmpeg";
     spawn := sp;
     decode := ascii_decode;
     write_outcome := λ _ _, IoOk;
     read_fault := λ _, None;
     remove_fault := λ _, None;
     makedirs_fault := λ _, None;
     image_fault := λ _, None;
     random16 := 0 |}.

(** A world without i/o faults whose sixteen random bytes are [r]. *)
Definition drawn_world (r : N)
    (sp : list string → gmap string bytes → spawn_result) : world :=
  {| os := Posix;
     which := λ _, Some "/usr/bin/ffmpeg";
     spawn := sp;
     decode := latin1_decode;
     write_outcome := λ _ _, IoOk;
     read_fault := λ _, None;
     remove_fault := λ _, None;
     makedirs_fault := λ _, None;
     image_fault := λ _, None;
     random16 := r |}.

(** A world without other faults in which no upload can be decoded as an
    image. *)
Definition no_codec_world
    (sp : list string → gmap string bytes → spawn_result) : world :=
  {| os := Posix;
     which := λ _, Some "/usr/bin/ffmpeg";
     spawn := sp;
     decode := latin1_decode;
     write_outcome := λ _ _, IoOk;
     read_fault := λ _, None;
     remove_fault := λ _, None;
     makedirs_fault := λ _, None;
     image_fault :=
       λ _, Some (PyException "UnidentifiedImageError"
                    "cannot identify image file");
     random16 := 0 |}.

(** The exception, if any, that the script raises outside the button
    handler: by [os.makedirs] when [temp] is missing, else by the image
    preview. *)
Definition page_fault (w : world) (ss : session) (s : state) : option exn :=
  match (if bool_decide (is_Some (fs s !! "temp")) then None
         else makedirs_fault w "temp") with
  | Some e => Some e
  | None =>
      match image_upload ss with
      | Some image_file => image_fault w (getbuffer image_file)
      | None => None
      end
  end.

(** A session in which an image was uploaded and nothing clicked. *)
Definition preview_session : session :=
  {| image_upload := Some cover_png;
     audio_upload := None;
     bitrate_pick := 1%fin;
     generate_clicked := false |}.

(** A session in which nothing was uploaded and nothing clicked. *)
Definition idle_session : session :=
  {| image_upload := None;
     audio_upload := None;
     bitrate_pick := 1%fin;
     generate_clicked := false |}.

(** * Properties *)

(** ** The models on concrete inputs *)

Example splitext_plain : splitext Posix "cover.PNG" = ("cover", ".PNG").
Proof. reflexivity. Qed.

Example splitext_two_suffixes :
  splitext Posix "song.mp3.png" = ("song.mp3", ".png").
Proof. reflexivity. Qed.

Example splitext_leading_dot : splitext Posix ".png" = (".png", EmptyString).
Proof. reflexivity. Qed.

Example splitext_dir_dot : splitext Nt "a.b/c" = ("a.b/c", EmptyString).
Proof. reflexivity. Qed.

Example uuid_str_zero :
  Uuid.str {| Uuid.int := 0 |} = "00000000-0000-0000-0000-000000000000".
Proof. reflexivity. Qed.

Example uuid4_str :
  Uuid.str (Uuid.uuid4 0x0123456789abcdef0123456789abcdef)
  = "01234567-89ab-4def-8123-456789abcdef".
Proof. vm_compute. reflexivity. Qed.

(** Newline translation of captured text: [a\r\nb\rc] becomes [a\nb\nc]. *)
Example translate_newlines_sample :
  _translate_newlines (quiet_world stub_absent)
    (encode ("a" +:+ String cr (String lf "b") +:+ String cr "c"))
  = Some ("a" +:+ String lf "b" +:+ String lf "c").
Proof. reflexivity. Qed.

(** Upper-case extensions are accepted, and the two roles are not
    interchangeable. *)
Example validate_upper_case :
  validate Posix "COVER.PNG" "SONG.MP3" = Valid
  ∧ validate Nt "Photo.JpEg" "Track.MPEG" = Valid
  ∧ validate Posix "song.mp3" "cover.png" = InvalidImage
  ∧ validate Posix "cover.png" "cover.png" = InvalidAudio.
Proof. repeat split; reflexivity. Qed.

(** A run in which the child prints a byte the locale cannot decode: the
    exception leaves the script after the child ran, nothing is removed. *)
Example run_undecodable_output :
  let w := strict_world (stub_garbled 1) in
  let r := generate w (Some cover_png) (Some song_mp3) "192k" state0 in
  r.1 = Raise (UnicodeDecodeError [Byte.xff])
  ∧ page r.2 = [Progress 0; Progress 50]
  ∧ fs r.2 !! temp_image_path (job_id w) "cover.png"
    = Some (getbuffer cover_png).
Proof. vm_compute. repeat split; reflexivity. Qed.

(** A whole run of the script: [temp] is created, the page is rendered with
    its two previews, the uploads are written, [ffmpeg] is run, the output
    is read for the download button and the three files are removed. *)
Example run_success :
  let w := quiet_world (stub_encoder [Byte.x00; Byte.x01]) in
  let r := app w {| image_upload := Some cover_png;
                    audio_upload := Some song_mp3;
                    bitrate_pick := 3%fin;
                    generate_clicked := true |} state0 in
  let id := "00000000-0000-4000-8000-000000000000" in
  r.1 = Ok tt
  ∧ syslog r.2
    = [ EvMakedirs "temp";
        EvOpenW ("temp/" +:+ id +:+ "_cover.png");
        EvOpenW ("temp/" +:+ id +:+ "_song.mp3");
        EvExec (ffmpeg_cmd ("temp/" +:+ id +:+ "_cover.png")
                  ("temp/" +:+ id +:+ "_song.mp3")
                  ("temp/output_" +:+ id +:+ ".mp4") "320k");
        EvOpenR ("temp/output_" +:+ id +:+ ".mp4");
        EvRemove ("temp/" +:+ id +:+ "_cover.png");
        EvRemove ("temp/" +:+ id +:+ "_song.mp3");
        EvRemove ("temp/output_" +:+ id +:+ ".mp4") ]
  ∧ page r.2
    = [ PageConfig "Image to Video Converter" "🎥" "wide";
        Markdown style_sheet;
        Title "🎥 Image to Video Converter";
        PlainMarkdown
          "Combine an image (PNG/JPG) and audio (MP3) file to create a video using FFmpeg.";
        Expander "ℹ️ How to Install FFmpeg" help_text;
        PlainMarkdown "**Image Preview**";
        Image (getbuffer cover_png) "Uploaded Image";
        PlainMarkdown "**Audio Preview**";
        Audio (getbuffer song_mp3) "audio/mpeg";
        Progress 0; Progress 50; Progress 100; Markdown msg_success;
        DownloadButton "Download Video" [Byte.x00; Byte.x01] "output.mp4"
          "video/mp4";
        PlainMarkdown "---";
        PlainMarkdown "Built with Streamlit and FFmpeg | © 2025" ]
  ∧ fs r.2 = {[ "temp" := [] ]}.
Proof. vm_compute. repeat split; reflexivity. Qed.

(** A run in which the child process fails: no download, files removed. *)
Example run_tool_failure :
  let w := quiet_world (stub_failing 1 "out" "X") in
  let r := generate w (Some cover_png) (Some song_mp3) "192k" state0 in
  r.1 = Ok tt
  ∧ page r.2
    = [ Progress 0; Progress 50; Progress 100;
        Markdown (p_class "error-message" "FFmpeg Error: X") ]
  ∧ fs r.2 = ∅.
Proof. vm_compute. repeat split; reflexivity. Qed.

(** A run refused at validation. *)
Example run_invalid_audio :
  let w := quiet_world stub_absent in
  let wav := {| name := "song.wav"; getbuffer := [Byte.x52] |} in
  generate w (Some cover_png) (Some wav) "192k" state0
  = (Ok tt, mkState ∅ [] [Markdown msg_invalid_audio]).
Proof. reflexivity. Qed.

(** ** Strings *)

Lemma append_assoc (a b c : string) : (a +:+ b) +:+ c = a +:+ (b +:+ c).
Proof. induction a as [|x a IH]; simpl; congruence. Qed.

Lemma append_length (a b : string) :
  String.length (a +:+ b) = (String.length a + String.length b)%nat.
Proof.
  induction a as [|x a IH]; simpl; [reflexivity | now rewrite IH].
Qed.

Lemma append_inv_head (a x y : string) : a +:+ x = a +:+ y → x = y.
Proof.
  induction a as [|c a IH]; simpl; intros H; [exact H|].
  injection H as H. auto.
Qed.

(** Two prefixes of the same length of one string are the same prefix. *)
Lemma append_eq_length (a b x y : string) :
  String.length a = String.length b → a +:+ x = b +:+ y → a = b ∧ x = y.
Proof.
  revert b. induction a as [|c a IH]; intros [|d b]; simpl; try discriminate.
  - auto.
  - intros Hl H. injection Hl as Hl. injection H as Hc H.
    destruct (IH b Hl H) as [-> ->]. subst. auto.
Qed.

(** ** Tokens *)

Lemma hex_digit_is_hex d : is_hex (Uuid.hex_digit d) = true.
Proof.
  unfold Uuid.hex_digit.
  destruct (N.to_nat d)
    as [|[|[|[|[|[|[|[|[|[|[|[|[|[|[|[|n]]]]]]]]]]]]]]]]; reflexivity.
Qed.

(** A token is 36 characters long and starts with a hexadecimal digit. *)
Lemma str_shape u :
  ∃ c rest, Uuid.str u = String c rest ∧ is_hex c = true
            ∧ String.length rest = 35%nat.
Proof.
  unfold Uuid.str.
  cbn [Uuid.hex_fmt Py.slice Py.take Py.drop String.append Nat.sub].
  eexists _, _. split; [reflexivity|].
  split; [apply hex_digit_is_hex | reflexivity].
Qed.

Lemma str_length u : String.length (Uuid.str u) = 36%nat.
Proof. destruct (str_shape u) as (c & rest & -> & _ & Hl). simpl. now rewrite Hl. Qed.

Lemma below_16 (d : N) :
  (d < 16)%N → In d [0; 1; 2; 3; 4; 5; 6; 7; 8; 9; 10; 11; 12; 13; 14; 15]%N.
Proof. intros H. simpl. lia. Qed.

Lemma hex_digit_inj (a b : N) :
  (a < 16)%N → (b < 16)%N → Uuid.hex_digit a = Uuid.hex_digit b → a = b.
Proof.
  intros Ha Hb. apply below_16 in Ha, Hb. simpl in Ha, Hb.
  repeat (destruct Ha as [<-|Ha]; [|]); try contradiction;
  repeat (destruct Hb as [<-|Hb]; [|]); try contradiction;
  vm_compute; first [reflexivity | discriminate].
Qed.

(** The [k] digits printed determine the value modulo [16^k]. *)
Lemma hex_fmt_inj k (n m : N) :
  Uuid.hex_fmt k n = Uuid.hex_fmt k m →
  (n mod 16 ^ N.of_nat k = m mod 16 ^ N.of_nat k)%N.
Proof.
  induction k as [|k IH]; intros H.
  - simpl. now rewrite !N.mod_1_r.
  - cbn [Uuid.hex_fmt] in H. injection H as Hd Hrest.
    apply hex_digit_inj in Hd; try (apply N.mod_lt; discriminate).
    specialize (IH Hrest).
    rewrite Nat2N.inj_succ, N.pow_succ_r'.
    rewrite (N.mul_comm 16).
    rewrite !N.Div0.mod_mul_r. congruence.
Qed.

(** Distinct 128-bit values print as distinct tokens. *)
Lemma str_inj (u1 u2 : Uuid.UUID) :
  (Uuid.int u1 < 2 ^ 128)%N → (Uuid.int u2 < 2 ^ 128)%N →
  Uuid.str u1 = Uuid.str u2 → u1 = u2.
Proof.
  destruct u1 as [n], u2 as [m]. cbn [Uuid.int]. intros Hn Hm H.
  assert (Hh : Uuid.hex_fmt 32 n = Uuid.hex_fmt 32 m).
  { unfold Uuid.str in H.
    cbn [Uuid.int Uuid.hex_fmt Py.slice Py.take Py.drop String.append Nat.sub] in H.
    cbn [Uuid.hex_fmt]. congruence. }
  apply hex_fmt_inj in Hh.
  change (16 ^ N.of_nat 32)%N with (2 ^ 128)%N in Hh.
  rewrite !N.mod_small in Hh by assumption. now subst.
Qed.

Lemma uuid4_bound r : (Uuid.int (Uuid.uuid4 r) < 2 ^ 128)%N.
Proof.
  unfold Uuid.uuid4. cbn [Uuid.int].
  set (i := (r mod 2 ^ 128)%N).
  assert (Hi : (i < 2 ^ 128)%N) by (apply N.mod_lt; discriminate).
  assert (Hl : (N.log2 i < 128)%N).
  { destruct (N.eq_dec i 0%N) as [->|Hz]; [reflexivity|].
    apply N.log2_lt_pow2; [lia | exact Hi]. }
  assert (Hd : ∀ a b, (N.log2 a < 128)%N → (N.log2 (N.ldiff a b) < 128)%N).
  { intros a b Ha. eapply N.le_lt_trans; [|exact Ha].
    apply N.log2_le_mono, N.ldiff_le_l. }
  assert (Ho : ∀ a b, (N.log2 a < 128)%N → (N.log2 b < 128)%N →
                      (N.log2 (N.lor a b) < 128)%N).
  { intros a b Ha Hb. rewrite N.log2_lor. now apply N.max_lub_lt. }
  apply N.log2_lt_pow2.
  - apply N.neq_0_lt_0. intros H. apply N.lor_eq_0_iff in H.
    destruct H as [_ H]. discriminate H.
  - apply Ho; [apply Hd, Ho; [apply Hd, Hl|] |]; reflexivity.
Qed.

(** Two draws that give distinct UUIDs give distinct tokens. *)
Lemma uuid4_tokens_distinct (r1 r2 : N) :
  Uuid.uuid4 r1 ≠ Uuid.uuid4 r2 →
  Uuid.str (Uuid.uuid4 r1) ≠ Uuid.str (Uuid.uuid4 r2).
Proof. intros Hne H. apply Hne, str_inj; auto using uuid4_bound. Qed.

(** ** Path names *)

Lemma token_prefix_inj (u1 u2 : Uuid.UUID) (x y : string) :
  Uuid.str u1 +:+ x = Uuid.str u2 +:+ y → Uuid.str u1 = Uuid.str u2.
Proof.
  intros H. apply append_eq_length in H; [tauto|].
  now rewrite !str_length.
Qed.

Lemma temp_paths_distinct (u1 u2 : Uuid.UUID) (n1 n2 : string) :
  Uuid.str u1 ≠ Uuid.str u2 →
  temp_image_path (Uuid.str u1) n1 ≠ temp_image_path (Uuid.str u2) n2.
Proof.
  intros Hne H. unfold temp_image_path in H.
  apply append_inv_head, token_prefix_inj in H. contradiction.
Qed.

Lemma output_paths_distinct (u1 u2 : Uuid.UUID) :
  Uuid.str u1 ≠ Uuid.str u2 →
  output_path (Uuid.str u1) ≠ output_path (Uuid.str u2).
Proof.
  intros Hne H. unfold output_path in H.
  apply append_inv_head, token_prefix_inj in H. contradiction.
Qed.

(** An input path is never an output path: a token starts with a
    hexadecimal digit, [output_] does not. *)
Lemma temp_not_output (u1 u2 : Uuid.UUID) (n : string) :
  temp_image_path (Uuid.str u1) n ≠ output_path (Uuid.str u2).
Proof.
  unfold temp_image_path, output_path. intros H.
  change ("temp/output_" +:+ Uuid.str u2 +:+ ".mp4")
    with ("temp/" +:+ "output_" +:+ Uuid.str u2 +:+ ".mp4") in H.
  apply append_inv_head in H.
  destruct (str_shape u1) as (c & rest & Hs & Hc & _).
  rewrite Hs in H. simpl in H. injection H as Hc' _.
  subst c. discriminate Hc.
Qed.

Lemma audio_path_is_temp_path (unique_id audio_name : string) :
  temp_audio_path unique_id audio_name = temp_image_path unique_id audio_name.
Proof. reflexivity. Qed.

(** ** The primitives, as equations on states *)

Lemma write_file_eq w path data s :
  write_file w path data s =
  match write_outcome w path data with
  | IoOk =>
      (Ok tt, mkState (<[path := data]> (fs s))
                (syslog s ++ [EvOpenW path]) (page s))
  | IoOpenError e => (Raise e, logged (EvOpenW path) s)
  | IoWriteError e written =>
      (Raise e, mkState (<[path := written]> (fs s))
                  (syslog s ++ [EvOpenW path]) (page s))
  end.
Proof.
  unfold write_file. mstep.
  destruct (write_outcome w path data); reflexivity.
Qed.

Lemma read_file_eq w path s :
  read_file w path s =
  match fs s !! path with
  | Some data =>
      match read_fault w path with
      | Some e => (Raise e, logged (EvOpenR path) s)
      | None => (Ok data, logged (EvOpenR path) s)
      end
  | None => (Raise (FileNotFoundError path), logged (EvOpenR path) s)
  end.
Proof.
  unfold read_file. mstep.
  destruct (fs s !! path); [destruct (read_fault w path)|]; reflexivity.
Qed.

Lemma os_remove_eq w path s :
  os_remove w path s =
  match remove_fault w path with
  | Some e => (Raise e, logged (EvRemove path) s)
  | None =>
      (Ok tt, mkState (delete path (fs s))
                (syslog s ++ [EvRemove path]) (page s))
  end.
Proof. unfold os_remove. mstep. destruct (remove_fault w path); reflexivity. Qed.

(** [convert_image_to_video], outcome by outcome of the child process. *)
Lemma convert_eq w ip ap op br s :
  convert_image_to_video w ip ap op br s =
  let cmd := ffmpeg_cmd ip ap op br in
  match spawn w cmd (fs s) with
  | SpawnError (FileNotFoundError _) =>
      (Ok (false, not_found_message), logged (EvExec cmd) s)
  | SpawnError (CalledProcessError _ _ _ stderr) =>
      (Ok (false, "FFmpeg Error: " +:+ stderr), logged (EvExec cmd) s)
  | SpawnError e => (Raise e, logged (EvExec cmd) s)
  | Exited returncode out err f' =>
      (after_exit w returncode out err,
       mkState f' (syslog s ++ [EvExec cmd]) (page s))
  end.
Proof.
  unfold convert_image_to_video, subprocess_run, after_exit. mstep.
  destruct (spawn w _ (fs s)) as [[]|rc out err f']; try reflexivity.
  destruct (_translate_newlines w out); [|reflexivity].
  destruct (_translate_newlines w err); [|reflexivity].
  destruct (rc =? 0); reflexivity.
Qed.

(** ** The clean-up loop *)

(** Whatever the removals do, the loop only removes: the page is untouched,
    an absent path stays absent and the only system calls are removals. *)
Lemma remove_existing_inv w paths s :
  let s' := (remove_existing w paths s).2 in
  page s' = page s
  ∧ (∀ q, fs s !! q = None → fs s' !! q = None)
  ∧ ∃ evs, syslog s' = syslog s ++ evs ∧ Forall is_remove evs.
Proof.
  revert s. induction paths as [|p paths IH]; intros s; cbn zeta.
  - cbn. split; [reflexivity|]. split; [auto|].
    exists []. now rewrite app_nil_r.
  - cbn [remove_existing]. unfold os_path_exists. mstep.
    destruct (bool_decide (is_Some (fs s !! p))).
    + rewrite os_remove_eq. destruct (remove_fault w p) as [e|].
      * cbn. split; [reflexivity|]. split; [auto|].
        exists [EvRemove p]. split; [reflexivity|].
        constructor; [now exists p | constructor].
      * match goal with |- context [remove_existing w paths ?t] =>
          specialize (IH t) end.
        cbn zeta in IH. cbn [fs syslog page] in IH.
        destruct IH as (Hp & Hf & evs & Hl & Hr).
        split; [exact Hp|]. split.
        -- intros q Hq. apply Hf. rewrite lookup_delete. case_decide; auto.
        -- exists (EvRemove p :: evs). split.
           ++ rewrite Hl, <- app_assoc. reflexivity.
           ++ constructor; [now exists p | exact Hr].
    + match goal with |- context [remove_existing w paths ?t] =>
        specialize (IH t) end.
      cbn zeta in IH. cbn [fs syslog page] in IH.
      destruct IH as (Hp & Hf & evs & Hl & Hr).
      split; [exact Hp|]. split; [exact Hf|]. eauto.
Qed.



(** The loop only removes paths of its list. *)
Lemma remove_existing_listed w paths s :
  ∃ evs, syslog (remove_existing w paths s).2 = syslog s ++ evs
         ∧ Forall (λ ev, ∃ p, p ∈ paths ∧ ev = EvRemove p) evs.
Proof.
  revert s. induction paths as [|p paths IH]; intros s.
  - exists []. split; [cbn; now rewrite app_nil_r | constructor].
  - assert (Hlift : ∀ evs,
      Forall (λ ev, ∃ q, q ∈ paths ∧ ev = EvRemove q) evs →
      Forall (λ ev, ∃ q, q ∈ p :: paths ∧ ev = EvRemove q) evs).
    { intros evs H. eapply Forall_impl; [|exact H].
      intros ev (q & Hq & ->). exists q. split; [now right | reflexivity]. }
    assert (Hhere : ∃ q, q ∈ p :: paths ∧ EvRemove p = EvRemove q)
      by (exists p; split; [now left | reflexivity]).
    cbn [remove_existing]. unfold os_path_exists. mstep.
    destruct (bool_decide (is_Some (fs s !! p))).
    + rewrite os_remove_eq. destruct (remove_fault w p) as [e|].
      * exists [EvRemove p]. split; [reflexivity|].
        constructor; [exact Hhere | constructor].
      * match goal with |- context [remove_existing w paths ?t] =>
          destruct (IH t) as (evs & Hl & Hr) end.
        cbn [syslog] in Hl. exists (EvRemove p :: evs). split.
        -- rewrite Hl, <- app_assoc. reflexivity.
        -- constructor; [exact Hhere | exact (Hlift _ Hr)].
    + match goal with |- context [remove_existing w paths ?t] =>
        destruct (IH t) as (evs & Hl & Hr) end.
      cbn [syslog] in Hl. exists evs. split; [exact Hl | exact (Hlift _ Hr)].
Qed.

(** ** The job, once both uploads are written *)

Lemma run_job_eq w img aud br s :
  let ip := temp_image_path (job_id w) (name img) in
  let ap := temp_audio_path (job_id w) (name aud) in
  let op := output_path (job_id w) in
  write_outcome w ip (getbuffer img) = IoOk →
  write_outcome w ap (getbuffer aud) = IoOk →
  run_job w img aud br s =
  match convert_image_to_video w ip ap op br (after_writes w img aud s) with
  | (Ok (true, _), s3) =>
      let opened :=
        mkState (fs s3) (syslog s3 ++ [EvOpenR op])
          (page s3 ++ [Progress 100; Markdown msg_success]) in
      match fs s3 !! op with
      | Some data =>
          match read_fault w op with
          | Some e => (Raise e, opened)
          | None =>
              remove_existing w [ip; ap; op]
                (mkState (fs s3) (syslog s3 ++ [EvOpenR op])
                   (page s3 ++
                    [Progress 100; Markdown msg_success;
                     DownloadButton "Download Video" data "output.mp4"
                       "video/mp4"]))
          end
      | None => (Raise (FileNotFoundError op), opened)
      end
  | (Ok (false, message), s3) =>
      remove_existing w [ip; ap; op]
        (mkState (fs s3) (syslog s3)
           (page s3 ++
            [Progress 100; Markdown (p_class "error-message" message)]))
  | (Raise e, s3) => (Raise e, s3)
  end.
Proof.
  intros ip ap op Hi Ha. unfold run_job. fold (job_id w). fold ip ap op.
  mstep.
  rewrite write_file_eq, Hi. cbn [fs syslog page].
  rewrite write_file_eq, Ha. cbn [fs syslog page].
  unfold after_writes. fold ip ap. rewrite <- !app_assoc. cbn [app].
  destruct (convert_image_to_video w ip ap op br _) as [[[[] msg]|e] s3];
    try reflexivity.
  - rewrite read_file_eq. cbn [fs syslog page]. cbn zeta.
    destruct (fs s3 !! op); [destruct (read_fault w op)|];
      unfold logged, msg_success; cbn [fs syslog page];
      rewrite <- ?app_assoc; reflexivity.
  - cbn [fs syslog page]. rewrite <- ?app_assoc. reflexivity.
Qed.

(** A job is started when both uploads are present, [ffmpeg] is on the path
    and both extensions are accepted; [generate] then runs the job. *)
Lemma generate_started w img aud br :
  check_ffmpeg w = true →
  validate (os w) (name img) (name aud) = Valid →
  generate w (Some img) (Some aud) br = run_job w img aud br.
Proof. intros Hc Hv. unfold generate. now rewrite Hc, Hv. Qed.

(** The job never opens its output path for writing, and never an input path
    that is also the output path. *)
Lemma input_paths_not_output w img aud :
  temp_image_path (job_id w) (name img) ≠ output_path (job_id w)
  ∧ temp_audio_path (job_id w) (name aud) ≠ output_path (job_id w).
Proof. split; apply temp_not_output. Qed.

(** ** The command line (C2) *)

Lemma convert_log w ip ap op br s :
  syslog (convert_image_to_video w ip ap op br s).2
  = syslog s ++ [EvExec (ffmpeg_cmd ip ap op br)].
Proof.
  rewrite convert_eq. cbn zeta.
  destruct (spawn w _ (fs s)) as [[]|rc out err f']; reflexivity.
Qed.

(** C2.  Whatever the world and the state, [convert_image_to_video] makes
    exactly one system call, [subprocess.run], and its argument list is the
    program name followed by: the overwrite flag, the loop flag with value 1,
    the image input, the audio input, the video codec, the still-image
    tuning, the audio codec, the audio bitrate passed by the caller, the
    pixel format, the shortest-stream flag and the output path, in this
    order and with nothing else. *)
Theorem convert_command_line w image_path audio_path out_path bitrate s :
  syslog (convert_image_to_video w image_path audio_path out_path bitrate s).2
  = syslog s ++
    [EvExec [ "ffmpeg"; "-y"; "-loop"; "1"; "-i"; image_path;
              "-i"; audio_path; "-c:v"; "libx264"; "-tune"; "stillimage";
              "-c:a"; "aac"; "-b:a"; bitrate; "-pix_fmt"; "yuv420p";
              "-shortest"; out_path ]].
Proof.
  rewrite convert_eq. cbn zeta. unfold ffmpeg_cmd.
  destruct (spawn w _ (fs s)) as [e|rc out err f'].
  - destruct e; reflexivity.
  - reflexivity.
Qed.

(** ** A failing child process (C3) *)





(** ** The executable is missing at invocation (C4) *)

(** C4.  In a started job whose uploads were written, when [subprocess.run]
    cannot resolve the executable, [convert_image_to_video] returns [False]
    with the fixed guidance message and leaves the file system as it found
    it; the output path, absent before the job, is absent after the writes,
    after the conversion and at the end, the job's only system calls being
    the two writes to its input paths (neither is the output path), the
    attempted spawn and removals; the page shows the guidance message. *)
Theorem tool_not_found w img aud bitrate s filename :
  let ip := temp_image_path (job_id w) (name img) in
  let ap := temp_audio_path (job_id w) (name aud) in
  let op := output_path (job_id w) in
  let cmd := ffmpeg_cmd ip ap op bitrate in
  check_ffmpeg w = true →
  validate (os w) (name img) (name aud) = Valid →
  write_outcome w ip (getbuffer img) = IoOk →
  write_outcome w ap (getbuffer aud) = IoOk →
  spawn w cmd (fs (after_writes w img aud s))
  = SpawnError (FileNotFoundError filename) →
  fs s !! op = None →
  convert_image_to_video w ip ap op bitrate (after_writes w img aud s)
  = (Ok (false, not_found_message),
     logged (EvExec cmd) (after_writes w img aud s))
  ∧ fs (after_writes w img aud s) !! op = None
  ∧ let s' := (generate w (Some img) (Some aud) bitrate s).2 in
    fs s' !! op = None
    ∧ (∃ removals,
         syslog s' = syslog s ++ [EvOpenW ip; EvOpenW ap; EvExec cmd]
                     ++ removals
         ∧ Forall is_remove removals)
    ∧ ip ≠ op ∧ ap ≠ op
    ∧ page s' = page s ++
        [Progress 0; Progress 50; Progress 100;
         Markdown (p_class "error-message" not_found_message)].
Proof.
  intros ip ap op cmd Hc Hv Hi Ha Hs Hop.
  destruct (input_paths_not_output w img aud) as [Hip Hap].
  fold ip op in Hip. fold ap op in Hap.
  assert (Hconv :
    convert_image_to_video w ip ap op bitrate (after_writes w img aud s)
    = (Ok (false, not_found_message),
       logged (EvExec cmd) (after_writes w img aud s))).
  { rewrite convert_eq. cbn zeta. fold cmd. now rewrite Hs. }
  assert (Hafter : fs (after_writes w img aud s) !! op = None).
  { unfold after_writes. cbn [fs]. fold ip ap.
    rewrite !lookup_insert_ne by assumption. exact Hop. }
  split; [exact Hconv|]. split; [exact Hafter|]. cbn zeta.
  rewrite generate_started by assumption.
  rewrite run_job_eq by assumption. fold ip ap op. rewrite Hconv.
  match goal with |- context [remove_existing w ?ps ?t] =>
    pose proof (remove_existing_inv w ps t) as Hinv;
    set (r := remove_existing w ps t) in * end.
  cbn zeta in Hinv. cbn [fs syslog page logged] in Hinv.
  destruct Hinv as (Hp & Hf & evs & Hl & Hr).
  split; [apply Hf, Hafter|]. split.
  - exists evs. split; [|exact Hr]. rewrite Hl.
    unfold after_writes. cbn [syslog]. fold ip ap.
    rewrite <- !app_assoc. reflexivity.
  - split; [exact Hip|]. split; [exact Hap|].
    rewrite Hp. unfold after_writes. cbn [page].
    rewrite <- !app_assoc. reflexivity.
Qed.

Lemma tool_not_found_witness :
  let w := quiet_world stub_absent in
  let op := "temp/output_00000000-0000-4000-8000-000000000000.mp4" in
  (convert_image_to_video w
     "temp/00000000-0000-4000-8000-000000000000_cover.png"
     "temp/00000000-0000-4000-8000-000000000000_song.mp3" op "192k"
     (after_writes w cover_png song_mp3 state0)).1
  = Ok (false, not_found_message)
  ∧ fs (generate w (Some cover_png) (Some song_mp3) "192k" state0).2 !! op
    = None.
Proof.
  intros w op.
  destruct (tool_not_found w cover_png song_mp3 "192k" state0 "ffmpeg")
    as (Hconv & _ & Hend & _); try reflexivity.
  split; [|exact Hend].
  change (temp_image_path (job_id w) (name cover_png))
    with "temp/00000000-0000-4000-8000-000000000000_cover.png" in Hconv.
  change (temp_audio_path (job_id w) (name song_mp3))
    with "temp/00000000-0000-4000-8000-000000000000_song.mp3" in Hconv.
  change (output_path (job_id w)) with op in Hconv.
  now rewrite Hconv.
Defined.

(** ** A successful conversion (C8) *)




(** ** Clean-up (C1) *)




(** ** Errors: reported or raised (C6) *)




(** ** The system calls of a job, and the bitrate (C9) *)

Lemma run_job_log w img aud br s :
  ∃ evs, syslog (run_job w img aud br s).2
         = syslog s ++
           EvOpenW (temp_image_path (job_id w) (name img)) :: evs
         ∧ Forall (job_event w img aud br) evs.
Proof.
  set (ip := temp_image_path (job_id w) (name img)).
  set (ap := temp_audio_path (job_id w) (name aud)).
  set (op := output_path (job_id w)).
  set (cmd := ffmpeg_cmd ip ap op br).
  assert (E2 : job_event w img aud br (EvOpenW ap))
    by (unfold job_event; fold ap; in_list).
  assert (E3 : job_event w img aud br (EvExec cmd))
    by (unfold job_event; fold ip ap op cmd; in_list).
  assert (E4 : job_event w img aud br (EvOpenR op))
    by (unfold job_event; fold op; in_list).
  assert (Erm : ∀ evs,
            Forall (λ ev, ∃ p, p ∈ [ip; ap; op] ∧ ev = EvRemove p) evs →
            Forall (job_event w img aud br) evs).
  { intros evs H. eapply Forall_impl; [|exact H].
    intros ev (p & Hp & ->). unfold job_event. fold ip ap op.
    apply list_elem_of_In in Hp. cbn [In] in Hp.
    destruct Hp as [<-|[<-|[<-|[]]]]; in_list. }
  unfold run_job. fold (job_id w). fold ip ap op. mstep.
  rewrite write_file_eq. cbn [fs syslog page].
  destruct (write_outcome w ip (getbuffer img)) as [|e|e written];
    [| exists []; split; [reflexivity | constructor] ..].
  rewrite write_file_eq. cbn [fs syslog page].
  destruct (write_outcome w ap (getbuffer aud)) as [|e|e written];
    [| exists [EvOpenW ap];
       (split; [cbn; rewrite <- app_assoc; reflexivity
               | repeat constructor; assumption]) ..].
  match goal with |- context [convert_image_to_video w ip ap op br ?t] =>
    pose proof (convert_log w ip ap op br t) as Hlog;
    destruct (convert_image_to_video w ip ap op br t) as [[[[] msg]|e] s3]
  end; cbn [snd syslog] in Hlog; fold cmd in Hlog.
  - rewrite read_file_eq. cbn [fs syslog page]. unfold logged.
    destruct (fs s3 !! op) as [data|]; [destruct (read_fault w op)|];
      cbn [fs syslog page].
    + exists [EvOpenW ap; EvExec cmd; EvOpenR op]. split.
      * cbn. rewrite Hlog, <- !app_assoc. reflexivity.
      * repeat constructor; assumption.
    + match goal with |- context [remove_existing w ?ps ?t] =>
        destruct (remove_existing_listed w ps t) as (evs & Hl & Hr) end.
      cbn [syslog] in Hl.
      exists ([EvOpenW ap; EvExec cmd; EvOpenR op] ++ evs).
      split.
      * rewrite Hl, Hlog, <- !app_assoc. reflexivity.
      * apply Forall_app. split; [repeat constructor; assumption | auto].
    + exists [EvOpenW ap; EvExec cmd; EvOpenR op]. split.
      * cbn. rewrite Hlog, <- !app_assoc. reflexivity.
      * repeat constructor; assumption.
  - cbn [fs syslog page].
    match goal with |- context [remove_existing w ?ps ?t] =>
      destruct (remove_existing_listed w ps t) as (evs & Hl & Hr) end.
    cbn [syslog] in Hl.
    exists ([EvOpenW ap; EvExec cmd] ++ evs). split.
    + rewrite Hl, Hlog, <- !app_assoc. reflexivity.
    + apply Forall_app. split; [repeat constructor; assumption | auto].
  - exists [EvOpenW ap; EvExec cmd]. split.
    + cbn. rewrite Hlog, <- !app_assoc. reflexivity.
    + repeat constructor; assumption.
Qed.

Lemma generate_log w image_file audio_file br s :
  syslog (generate w image_file audio_file br s).2 = syslog s
  ∨ ∃ img aud evs,
      image_file = Some img ∧ audio_file = Some aud
      ∧ syslog (generate w image_file audio_file br s).2 = syslog s ++ evs
      ∧ Forall (job_event w img aud br) evs.
Proof.
  unfold generate.
  destruct image_file as [img|], audio_file as [aud|]; try (now left).
  destruct (check_ffmpeg w); cbn [negb]; [|now left].
  destruct (validate _ _ _); try (now left).
  right. destruct (run_job_log w img aud br s) as (evs & Hl & Hf).
  exists img, aud, (EvOpenW (temp_image_path (job_id w) (name img)) :: evs).
  repeat split; [exact Hl|]. constructor; [|exact Hf].
  unfold job_event. in_list.
Qed.

(** System calls of sequences, branches and primitives. *)
Lemma only_calls_quiet {A} P (m : M A) :
  (∀ s, syslog (m s).2 = syslog s) → only_calls P m.
Proof.
  intros H s. exists []. split; [now rewrite H, app_nil_r | constructor].
Qed.

Lemma only_calls_bind {A B} P (m : M A) (k : A → M B) :
  only_calls P m → (∀ a, only_calls P (k a)) → only_calls P (m ≫= k).
Proof.
  intros Hm Hk s. destruct (Hm s) as (evs & Hl & Hf).
  unfold mbind, M_bind. destruct (m s) as [[a|e] s1]; cbn [snd] in Hl.
  - destruct (Hk a s1) as (evs' & Hl' & Hf').
    exists (evs ++ evs'). split.
    + now rewrite Hl', Hl, app_assoc.
    + apply Forall_app. now split.
  - exists evs. now split.
Qed.

Lemma only_calls_show P ev : only_calls P (show ev).
Proof. now apply only_calls_quiet. Qed.

Lemma only_calls_ret {A} P (a : A) : only_calls P (mret a).
Proof. now apply only_calls_quiet. Qed.

Lemma only_calls_raise {A} P e : only_calls P (raise e : M A).
Proof. now apply only_calls_quiet. Qed.

Lemma only_calls_log (P : sys_event → Prop) ev : P ev → only_calls P (log ev).
Proof.
  intros H s. exists [ev]. split; [reflexivity|].
  constructor; [exact H | constructor].
Qed.

Lemma only_calls_ensure_temp P w :
  P (EvMakedirs "temp") → only_calls P (ensure_temp w).
Proof.
  intros H. unfold ensure_temp, os_path_exists.
  apply only_calls_bind.
  - apply only_calls_bind; [now apply only_calls_quiet|].
    intros f. apply only_calls_ret.
  - intros [|]; [apply only_calls_ret|]. unfold os_makedirs.
    apply only_calls_bind; [now apply only_calls_log|]. intros _.
    destruct (makedirs_fault w "temp"); [apply only_calls_raise|].
    now apply only_calls_quiet.
Qed.

Lemma only_calls_generate w image_file audio_file br :
  only_calls (λ ev, ∃ img aud, job_event w img aud br ev)
    (generate w image_file audio_file br).
Proof.
  intros s.
  destruct (generate_log w image_file audio_file br s)
    as [Hl|(img & aud & evs & _ & _ & Hl & Hf)].
  - exists []. split; [now rewrite Hl, app_nil_r | constructor].
  - exists evs. split; [exact Hl|].
    eapply Forall_impl; [|exact Hf]. intros ev Hev. now exists img, aud.
Qed.

(** The system calls of a run of the script: the creation of [temp], and
    those of the job, started with the bitrate of the select box. *)
Lemma app_calls w ss :
  only_calls
    (λ ev, ev = EvMakedirs "temp"
           ∨ ∃ img aud,
               job_event w img aud
                 (selectbox bitrate_options (bitrate_pick ss)) ev)
    (app w ss).
Proof.
  unfold app, markdown, st_image.
  repeat (apply only_calls_bind; [|intros _]);
    try apply only_calls_show.
  - apply only_calls_ensure_temp. now left.
  - destruct (negb _); [apply only_calls_show | apply only_calls_ret].
  - destruct (image_upload ss) as [img|]; [|apply only_calls_ret].
    apply only_calls_bind; [apply only_calls_show|]. intros _.
    destruct (image_fault w _); [apply only_calls_raise|].
    apply only_calls_show.
  - destruct (audio_upload ss) as [aud|]; [|apply only_calls_ret].
    apply only_calls_bind; [|intros _]; apply only_calls_show.
  - cbn zeta. destruct (generate_clicked ss); [|apply only_calls_ret].
    intros s.
    destruct (only_calls_generate w (image_upload ss) (audio_upload ss)
                (selectbox bitrate_options (bitrate_pick ss)) s)
      as (evs & Hl & Hf).
    exists evs. split; [exact Hl|].
    eapply Forall_impl; [|exact Hf]. intros ev Hev. now right.
Qed.

Lemma selectbox_in_options {n} (options : vec string n) (picked : fin n) :
  selectbox options picked ∈ vec_to_list options.
Proof. unfold selectbox. apply elem_of_vlookup. eauto. Qed.

(** C9.  In every run of the script, whatever the user picked in the select
    box and whatever the world does, each command line handed to
    [subprocess.run] is the [ffmpeg] command line of a job whose bitrate is
    one of [128k], [192k], [256k], [320k]. *)
Theorem bitrate_is_enumerated (w : world) (ss : session) (s : state) :
  ∃ evs, syslog (app w ss s).2 = syslog s ++ evs
         ∧ ∀ cmd, EvExec cmd ∈ evs →
             ∃ ip ap op bitrate,
               cmd = ffmpeg_cmd ip ap op bitrate
               ∧ bitrate ∈ ["128k"; "192k"; "256k"; "320k"].
Proof.
  destruct (app_calls w ss s) as (evs & Hl & Hf).
  exists evs. split; [exact Hl|].
  intros cmd Hin. rewrite Forall_forall in Hf.
  apply list_elem_of_In in Hin.
  destruct (Hf _ Hin) as [H|(img & aud & Hev)]; [discriminate H|].
  pose proof (selectbox_in_options bitrate_options (bitrate_pick ss)) as Hb.
  unfold job_event in Hev.
  apply list_elem_of_In in Hev. cbn [In] in Hev.
  destruct Hev as [H|[H|[H|[H|[H|[H|[H|[]]]]]]]]; try discriminate H.
  injection H as <-. eexists _, _, _, _. split; [reflexivity|exact Hb].
Qed.

(** ** Tokens and path names (C7) *)

(** C7, as the code has it.  The token of a job is [str(uuid.uuid4())], a
    function of the sixteen random bytes the job draws.  Every system call
    of a job names only the paths [temp/{token}_{imageName}],
    [temp/{token}_{audioName}] and [temp/output_{token}.mp4], which are the
    three paths of the clean-up list; the paths of two jobs whose tokens
    differ are pairwise distinct, whatever the uploads are called; and two
    draws that give different UUIDs give different tokens.  That the tokens
    of two jobs differ is an assumption on the random draws: the script
    checks nothing. *)
Theorem job_paths_disjoint (u1 u2 : Uuid.UUID) (image1 audio1 image2 audio2 : string) :
  Uuid.str u1 ≠ Uuid.str u2 →
  (∀ w img aud bitrate s,
     let token := Uuid.str (Uuid.uuid4 (random16 w)) in
     let ip := "temp/" +:+ token +:+ "_" +:+ name img in
     let ap := "temp/" +:+ token +:+ "_" +:+ name aud in
     let op := "temp/output_" +:+ token +:+ ".mp4" in
     ∃ evs, syslog (run_job w img aud bitrate s).2
            = syslog s ++ EvOpenW ip :: evs
            ∧ Forall (λ ev, ev ∈ [EvOpenW ip; EvOpenW ap;
                                  EvExec (ffmpeg_cmd ip ap op bitrate);
                                  EvOpenR op;
                                  EvRemove ip; EvRemove ap; EvRemove op])
                evs)
  ∧ job_paths (Uuid.str u1) image1 audio1
    = [ "temp/" +:+ Uuid.str u1 +:+ "_" +:+ image1;
        "temp/" +:+ Uuid.str u1 +:+ "_" +:+ audio1;
        "temp/output_" +:+ Uuid.str u1 +:+ ".mp4" ]
  ∧ (∀ p q, p ∈ job_paths (Uuid.str u1) image1 audio1 →
            q ∈ job_paths (Uuid.str u2) image2 audio2 → p ≠ q)
  ∧ (∀ r1 r2, Uuid.uuid4 r1 ≠ Uuid.uuid4 r2 →
              Uuid.str (Uuid.uuid4 r1) ≠ Uuid.str (Uuid.uuid4 r2)).
Proof.
  intros Hne. split; [|split; [|split]].
  - intros w img aud br s. cbn zeta.
    destruct (run_job_log w img aud br s) as (evs & Hl & Hf).
    exists evs. split; [exact Hl|].
    eapply Forall_impl; [|exact Hf]. intros ev Hev. exact Hev.
  - reflexivity.
  - intros p q Hp Hq. unfold job_paths in Hp, Hq.
    apply list_elem_of_In in Hp, Hq. cbn [In] in Hp, Hq.
    destruct Hp as [<-|[<-|[<-|[]]]]; destruct Hq as [<-|[<-|[<-|[]]]];
      first [ exact (temp_paths_distinct u1 u2 _ _ Hne)
            | exact (output_paths_distinct u1 u2 Hne)
            | exact (temp_not_output u1 u2 _)
            | exact (not_eq_sym (temp_not_output u2 u1 _)) ].
  - intros r1 r2 Hr H. apply Hr.
    destruct (Uuid.uuid4 r1) as [n1] eqn:E1, (Uuid.uuid4 r2) as [n2] eqn:E2.
    f_equal.
    pose proof (uuid4_bound r1) as B1. pose proof (uuid4_bound r2) as B2.
    rewrite E1 in B1. rewrite E2 in B2.
    exact (f_equal Uuid.int (str_inj _ _ B1 B2 H)).
Qed.

Lemma job_paths_disjoint_witness :
  let u1 := Uuid.uuid4 1 in
  let u2 := Uuid.uuid4 2 in
  Uuid.str u1 = "00000000-0000-4000-8000-000000000001"
  ∧ Uuid.str u2 = "00000000-0000-4000-8000-000000000002"
  ∧ ∀ p q, p ∈ job_paths (Uuid.str u1) "a.png" "a.mp3" →
           q ∈ job_paths (Uuid.str u2) "a.png" "a.mp3" → p ≠ q.
Proof.
  intros u1 u2. split; [reflexivity|]. split; [reflexivity|].
  apply (job_paths_disjoint u1 u2 "a.png" "a.mp3" "a.png" "a.mp3").
  vm_compute. discriminate.
Defined.

(** Nothing makes the token of a job fresh: two jobs whose random draws
    differ can get the same token, and then, for uploads of the same names,
    the same three paths; both jobs write, read and remove the same files. *)
Lemma same_token_same_paths :
  let w1 := drawn_world 0 (stub_encoder [Byte.x00]) in
  let w2 := drawn_world (2 ^ 62) (stub_encoder [Byte.x00]) in
  (random16 w1 =? random16 w2)%N = false
  ∧ job_id w1 = job_id w2
  ∧ job_paths (job_id w1) "cover.png" "song.mp3"
    = job_paths (job_id w2) "cover.png" "song.mp3"
  ∧ syslog (generate w1 (Some cover_png) (Some song_mp3) "192k" state0).2
    = syslog (generate w2 (Some cover_png) (Some song_mp3) "192k" state0).2
  ∧ EvOpenW "temp/00000000-0000-4000-8000-000000000000_cover.png"
    ∈ syslog (generate w1 (Some cover_png) (Some song_mp3) "192k" state0).2.
Proof.
  cbn zeta. split; [reflexivity|]. split; [vm_compute; reflexivity|].
  split; [vm_compute; reflexivity|]. split; [vm_compute; reflexivity|].
  vm_compute. left.
Qed.

(** ** [rfind], slices and [splitext] *)

Lemma contains_app a b c : contains (a +:+ b) c = contains a c || contains b c.
Proof.
  induction a as [|x a IH]; simpl; [reflexivity|].
  now rewrite IH, orb_assoc.
Qed.

Lemma rfind_bounds s c : -1 ≤ Py.rfind s c < Z.of_nat (String.length s).
Proof.
  induction s as [|a s IH]; cbn [Py.rfind String.length]; [lia|].
  destruct (Z.leb_spec 0 (Py.rfind s c)); [lia|].
  destruct (Ascii.eqb a c); lia.
Qed.

Lemma rfind_absent s c : contains s c = false → Py.rfind s c = -1.
Proof.
  induction s as [|a s IH]; cbn [Py.rfind contains]; [reflexivity|].
  intros H. apply orb_false_iff in H. destruct H as [Ha Hs].
  rewrite (IH Hs), Ha. reflexivity.
Qed.

Lemma rfind_app a b c :
  Py.rfind (a +:+ b) c
  = if 0 <=? Py.rfind b c then Z.of_nat (String.length a) + Py.rfind b c
    else Py.rfind a c.
Proof.
  induction a as [|x a IH]; cbn [String.append Py.rfind String.length].
  - destruct (Z.leb_spec 0 (Py.rfind b c)); [lia|].
    pose proof (rfind_bounds b c). lia.
  - rewrite IH. destruct (Z.leb_spec 0 (Py.rfind b c)) as [Hb|Hb].
    + destruct (Z.leb_spec 0 (Z.of_nat (String.length a) + Py.rfind b c));
        lia.
    + reflexivity.
Qed.

Lemma take_app a b : Py.take (String.length a) (a +:+ b) = a.
Proof. induction a as [|x a IH]; simpl; [now destruct b | now rewrite IH]. Qed.

Lemma drop_app a b : Py.drop (String.length a) (a +:+ b) = b.
Proof. induction a as [|x a IH]; simpl; [now destruct b | exact IH]. Qed.

Lemma slice_at a x b :
  Py.slice (a +:+ String x b) (String.length a) (S (String.length a))
  = String x EmptyString.
Proof.
  unfold Py.slice. rewrite drop_app.
  replace (S (String.length a) - String.length a)%nat with 1%nat by lia.
  reflexivity.
Qed.

(** The scan of [splitext] stops at the latest on a character that is not
    the extension separator. *)
Lemma scan_finds a x b e i n :
  x ≠ e → (i ≤ String.length a < i + n)%nat →
  splitext_scan (a +:+ String x b) e i n = true.
Proof.
  intros Hx. revert i. induction n as [|n IH]; intros i Hi; [lia|].
  cbn [splitext_scan].
  destruct (negb _) eqn:Hn; [reflexivity|].
  apply IH. destruct (Nat.eq_dec i (String.length a)) as [->|Hne]; [|lia].
  rewrite slice_at in Hn. apply negb_false_iff, String.eqb_eq in Hn.
  congruence.
Qed.

(** The index of the last separator is below the length of [pre] when no
    separator follows [pre]. *)
Lemma sep_index_bound os pre rest :
  has_sep os rest = false →
  let sepIndex :=
    match altsep os with
    | Some a => Z.max (Py.rfind (pre +:+ rest) (sep os))
                      (Py.rfind (pre +:+ rest) a)
    | None => Py.rfind (pre +:+ rest) (sep os)
    end in
  -1 ≤ sepIndex < Z.of_nat (String.length pre).
Proof.
  unfold has_sep. intros H. apply orb_false_iff in H. destruct H as [H1 H2].
  cbn zeta. rewrite rfind_app, (rfind_absent _ _ H1). cbn [Z.leb Z.compare].
  pose proof (rfind_bounds pre (sep os)).
  destruct (altsep os) as [a|]; [|lia].
  rewrite rfind_app, (rfind_absent _ _ H2). cbn [Z.leb Z.compare].
  pose proof (rfind_bounds pre a). lia.
Qed.

(** A dot put into a string adds no separator. *)
Lemma contains_dot_inserted x post suf c :
  c ≠ dot →
  contains (String x post +:+ String dot suf) c
  = contains (String x (post +:+ suf)) c.
Proof.
  intros Hc. cbn [String.append contains]. rewrite !contains_app.
  cbn [contains].
  replace (Ascii.eqb dot c) with false; [reflexivity|].
  symmetry. apply Ascii.eqb_neq. congruence.
Qed.

Lemma has_sep_dot os x post suf :
  has_sep os (String x post +:+ String dot suf)
  = has_sep os (String x (post +:+ suf)).
Proof.
  unfold has_sep.
  destruct os; cbn [sep altsep];
    rewrite !contains_dot_inserted by discriminate; reflexivity.
Qed.

(** [splitext] on a name whose last component has a character other than a
    dot before its last dot: the extension is the text from that dot on. *)
Lemma splitext_suffix os pre x post suf :
  x ≠ dot →
  has_sep os (String x (post +:+ suf)) = false →
  contains suf dot = false →
  splitext os (pre +:+ String x post +:+ String dot suf)
  = (pre +:+ String x post, String dot suf)
  ∧ final_suffix (pre +:+ String x post +:+ String dot suf) = String dot suf.
Proof.
  intros Hx Hsep Hdot.
  set (stem := pre +:+ String x post).
  assert (Hname : pre +:+ String x post +:+ String dot suf
                  = stem +:+ String dot suf)
    by (unfold stem; now rewrite append_assoc).
  assert (Hlen : String.length stem
                 = (String.length pre + S (String.length post))%nat)
    by (unfold stem; now rewrite append_length).
  assert (Hd : Py.rfind (stem +:+ String dot suf) dot
               = Z.of_nat (String.length stem)).
  { rewrite rfind_app. cbn [Py.rfind]. rewrite (rfind_absent _ _ Hdot).
    rewrite Ascii.eqb_refl. cbn. lia. }
  assert (Hsep' : has_sep os (String x post +:+ String dot suf) = false)
    by now rewrite has_sep_dot.
  pose proof (sep_index_bound os pre _ Hsep') as Hs. cbn zeta in Hs.
  split.
  - unfold splitext, _splitext, extsep.
    set (name := pre +:+ String x post +:+ String dot suf) in *.
    assert (Hd' : Py.rfind name dot = Z.of_nat (String.length stem))
      by (rewrite Hname; exact Hd).
    rewrite Hd'.
    set (sepIndex := match altsep os with
                     | Some a => _ | None => _ end) in *.
    replace (sepIndex <? Z.of_nat (String.length stem)) with true
      by (symmetry; apply Z.ltb_lt; lia).
    cbn [andb].
    assert (Hscan :
      splitext_scan name dot (Z.to_nat (sepIndex + 1))
        (Z.to_nat (Z.of_nat (String.length stem) - (sepIndex + 1))) = true).
    { unfold name.
      apply (scan_finds pre x (post +:+ String dot suf)); [exact Hx | lia]. }
    rewrite Hscan, Hname, Nat2Z.id, take_app, drop_app. reflexivity.
  - unfold final_suffix. rewrite Hname, Hd.
    replace (0 <=? Z.of_nat (String.length stem)) with true
      by (symmetry; apply Z.leb_le; lia).
    now rewrite Nat2Z.id, drop_app.
Qed.

(** The scan of [splitext] runs off its end over a run of dots. *)
Lemma scan_dots a n rest :
  splitext_scan (a +:+ replicate_char n dot +:+ rest) dot (String.length a) n
  = false.
Proof.
  revert a. induction n as [|n IH]; intros a; [reflexivity|].
  cbn [splitext_scan replicate_char String.append].
  rewrite slice_at, String.eqb_refl. cbn [negb].
  specialize (IH (a +:+ String dot EmptyString)).
  rewrite append_length, append_assoc in IH. cbn [String.length] in IH.
  replace (String.length a + 1)%nat with (S (String.length a)) in IH by lia.
  exact IH.
Qed.

Lemma contains_replicate n d c :
  c ≠ d → contains (replicate_char n d) c = false.
Proof.
  intros H. induction n as [|n IH]; [reflexivity|].
  cbn [replicate_char contains]. rewrite IH, orb_false_r.
  apply Ascii.eqb_neq. congruence.
Qed.

(** The last separator of a path is the last character of what precedes its
    last component. *)
Lemma sep_index_dir os dir rest :
  is_dir_prefix os dir →
  has_sep os rest = false →
  match altsep os with
  | Some a => Z.max (Py.rfind (dir +:+ rest) (sep os))
                    (Py.rfind (dir +:+ rest) a)
  | None => Py.rfind (dir +:+ rest) (sep os)
  end + 1 = Z.of_nat (String.length dir).
Proof.
  unfold has_sep. intros Hdir H.
  apply orb_false_iff in H. destruct H as [H1 H2].
  rewrite rfind_app, (rfind_absent _ _ H1). cbn [Z.leb Z.compare].
  assert (Hlast : ∀ d c c',
    Py.rfind (d +:+ String c EmptyString) c'
    = if Ascii.eqb c c' then Z.of_nat (String.length d) else Py.rfind d c').
  { intros d c c'. rewrite rfind_app. cbn [Py.rfind Z.leb Z.compare].
    destruct (Ascii.eqb c c'); cbn; [lia | reflexivity]. }
  destruct Hdir as [->|(d & c & -> & Hc)].
  - destruct (altsep os) as [a|]; [|reflexivity].
    rewrite rfind_app, (rfind_absent _ _ H2). reflexivity.
  - rewrite append_length. cbn [String.length]. rewrite !Hlast.
    pose proof (rfind_bounds d (sep os)) as B1.
    destruct (altsep os) as [a|] eqn:Ea.
    + rewrite rfind_app, (rfind_absent _ _ H2). cbn [Z.leb Z.compare].
      rewrite Hlast. pose proof (rfind_bounds d a) as B2.
      destruct Hc as [->|Hc].
      * rewrite Ascii.eqb_refl. destruct (Ascii.eqb (sep os) a); lia.
      * injection Hc as <-. rewrite Ascii.eqb_refl.
        destruct (Ascii.eqb a (sep os)); lia.
    + destruct Hc as [->|Hc]; [|discriminate Hc].
      rewrite Ascii.eqb_refl. lia.
Qed.

(** [splitext] on a name whose last component starts with its last dot, or
    with a run of dots that ends in it: no extension. *)
Lemma splitext_leading_dots os dir k suf :
  is_dir_prefix os dir →
  has_sep os suf = false →
  contains suf dot = false →
  let name := dir +:+ replicate_char k dot +:+ String dot suf in
  splitext os name = (name, EmptyString)
  ∧ final_suffix name = String dot suf.
Proof.
  intros Hdir Hsep Hdot name.
  set (stem := dir +:+ replicate_char k dot).
  assert (Hname : name = stem +:+ String dot suf)
    by (unfold name, stem; now rewrite append_assoc).
  assert (Hlen : String.length stem = (String.length dir + k)%nat).
  { unfold stem. rewrite append_length. f_equal.
    clear. induction k as [|k IH]; cbn; [reflexivity | now rewrite IH]. }
  assert (Hd : Py.rfind name dot = Z.of_nat (String.length stem)).
  { rewrite Hname, rfind_app. cbn [Py.rfind].
    rewrite (rfind_absent _ _ Hdot), Ascii.eqb_refl. cbn. lia. }
  assert (Hrest : has_sep os (replicate_char k dot +:+ String dot suf) = false).
  { unfold has_sep in *. apply orb_false_iff in Hsep.
    destruct Hsep as [H1 H2]. apply orb_false_iff.
    destruct os; cbn [sep altsep] in *;
      rewrite !contains_app, !contains_replicate by discriminate;
      cbn [contains orb]; rewrite ?H1, ?H2; split; reflexivity. }
  pose proof (sep_index_dir os dir _ Hdir Hrest) as Hs. fold name in Hs.
  split.
  - unfold splitext, _splitext, extsep. rewrite Hd.
    set (sepIndex := match altsep os with
                     | Some a => _ | None => _ end) in *.
    replace (Z.to_nat (sepIndex + 1)) with (String.length dir) by lia.
    replace (Z.to_nat (Z.of_nat (String.length stem) - (sepIndex + 1)))
      with k by lia.
    unfold name. rewrite scan_dots, andb_false_r. reflexivity.
  - unfold final_suffix. rewrite Hd.
    replace (0 <=? Z.of_nat (String.length stem)) with true
      by (symmetry; apply Z.leb_le; lia).
    now rewrite Nat2Z.id, Hname, drop_app.
Qed.

(** Without a dot there is no extension. *)
Lemma splitext_no_dot os name :
  contains name dot = false → (splitext os name).2 = EmptyString.
Proof.
  intros H. unfold splitext, _splitext, extsep.
  rewrite (rfind_absent _ _ H).
  replace (_ <? -1) with false; [reflexivity|].
  symmetry. apply Z.ltb_ge.
  pose proof (rfind_bounds name (sep os)).
  destruct (altsep os) as [a|]; lia.
Qed.

(** ** Extension validation (C5, C10) *)

Lemma elem_true x l : Py.elem x l = true ↔ x ∈ l.
Proof.
  unfold Py.elem. rewrite existsb_exists. split.
  - intros (e & He & Heq). apply String.eqb_eq in Heq. subst.
    now apply list_elem_of_In.
  - intros H. exists x. split; [now apply list_elem_of_In|].
    apply String.eqb_refl.
Qed.

Lemma lower_char_idem (a : ascii) :
  Py.lower_char (Py.lower_char a) = Py.lower_char a.
Proof. destruct a as [[] [] [] [] [] [] [] []]; reflexivity. Qed.

Lemma lower_idem s : Py.lower (Py.lower s) = Py.lower s.
Proof.
  induction s as [|a s IH]; simpl; [reflexivity|].
  now rewrite lower_char_idem, IH.
Qed.

Lemma in_all_ascii c : In c all_ascii.
Proof.
  unfold all_ascii. rewrite <- (ascii_nat_embedding c).
  apply List.in_map, List.in_seq.
  pose proof (nat_ascii_bounded c). lia.
Qed.

(** Two characters are the same letter exactly when [str.lower] sends them
    to the same character. *)
Lemma same_letter_lower c d :
  same_letter c d = Ascii.eqb (Py.lower_char c) (Py.lower_char d).
Proof.
  assert (H :
    forallb (λ c, forallb (λ d,
      Bool.eqb (same_letter c d)
        (Ascii.eqb (Py.lower_char c) (Py.lower_char d))) all_ascii)
      all_ascii = true) by (vm_compute; reflexivity).
  rewrite forallb_forall in H. specialize (H c (in_all_ascii c)).
  rewrite forallb_forall in H. specialize (H d (in_all_ascii d)).
  now apply Bool.eqb_prop in H.
Qed.

Lemma eqb_nocase_lower a b :
  eqb_nocase a b = true ↔ Py.lower a = Py.lower b.
Proof.
  revert b. induction a as [|c a IH]; intros [|d b];
    cbn [eqb_nocase Py.lower]; try (split; [reflexivity|reflexivity]);
    try (split; discriminate).
  rewrite andb_true_iff, same_letter_lower, IH. split.
  - intros [Hc Hs]. apply Ascii.eqb_eq in Hc. now rewrite Hc, Hs.
  - intros H. injection H as Hc Hs. split; [|exact Hs].
    rewrite Hc. apply Ascii.eqb_refl.
Qed.

Lemma elem_lower_accepted exts ext :
  (∀ e, e ∈ exts → Py.lower e = e) →
  Py.elem (Py.lower ext) exts = true ↔ accepted exts ext.
Proof.
  intros Hlow. rewrite elem_true. unfold accepted, eq_nocase. split.
  - intros H. exists (Py.lower ext). split; [exact H|].
    apply eqb_nocase_lower. symmetry. apply lower_idem.
  - intros (e & He & Heq). apply eqb_nocase_lower in Heq.
    rewrite Heq, (Hlow e He). exact He.
Qed.

Lemma image_exts_lower e : e ∈ image_exts → Py.lower e = e.
Proof.
  intros H. apply list_elem_of_In in H. cbn [image_exts In] in H.
  destruct H as [<-|[<-|[<-|[]]]]; reflexivity.
Qed.

Lemma audio_exts_lower e : e ∈ audio_exts → Py.lower e = e.
Proof.
  intros H. apply list_elem_of_In in H. cbn [audio_exts In] in H.
  destruct H as [<-|[<-|[]]]; reflexivity.
Qed.

Lemma validate_valid os image_name audio_name :
  validate os image_name audio_name = Valid
  ↔ Py.elem (image_ext os image_name) image_exts = true
    ∧ Py.elem (audio_ext os audio_name) audio_exts = true.
Proof.
  unfold validate.
  destruct (Py.elem (image_ext os image_name) image_exts),
           (Py.elem (audio_ext os audio_name) audio_exts);
    cbn [negb]; split; intros H; try discriminate; try tauto;
    destruct H; discriminate.
Qed.

(** C5.  For the names of the two uploads, validation passes exactly when
    the extension of the image's name is, up to case, one of [.png], [.jpg],
    [.jpeg] and the extension of the audio's name is, up to case, one of
    [.mp3], [.mpeg]; when validation does not pass, the run makes no system
    call and leaves the file system as it was. *)
Theorem validation_by_extension w img aud bitrate s :
  (validate (os w) (name img) (name aud) = Valid
   ↔ accepted [".png"; ".jpg"; ".jpeg"] (splitext (os w) (name img)).2
     ∧ accepted [".mp3"; ".mpeg"] (splitext (os w) (name aud)).2)
  ∧ (validate (os w) (name img) (name aud) ≠ Valid →
     let s' := (generate w (Some img) (Some aud) bitrate s).2 in
     fs s' = fs s ∧ syslog s' = syslog s).
Proof.
  split.
  - rewrite validate_valid. unfold image_ext, audio_ext.
    rewrite (elem_lower_accepted image_exts _ image_exts_lower).
    rewrite (elem_lower_accepted audio_exts _ audio_exts_lower).
    reflexivity.
  - intros Hv. unfold generate.
    destruct (check_ffmpeg w); cbn [negb]; [|split; reflexivity].
    destruct (validate _ _ _); [split; reflexivity .. | contradiction].
Qed.

Lemma validation_by_extension_witness :
  let w := quiet_world (stub_encoder [Byte.x00]) in
  let upper := {| name := "COVER.PNG"; getbuffer := [Byte.x89] |} in
  let mixed := {| name := "Song.Mp3"; getbuffer := [Byte.x49] |} in
  let gif := {| name := "cover.gif"; getbuffer := [Byte.x47] |} in
  let s' := (generate w (Some gif) (Some song_mp3) "192k" state0).2 in
  validate (os w) (name upper) (name mixed) = Valid
  ∧ fs s' = ∅ ∧ syslog s' = [].
Proof.
  intros w upper mixed gif. split.
  - apply (validation_by_extension w upper mixed "192k" state0). split.
    + exists ".png". split; [left | reflexivity].
    + exists ".mp3". split; [left | reflexivity].
  - apply (validation_by_extension w gif song_mp3 "192k" state0).
    vm_compute. discriminate.
Defined.

(** C10, as the code has it.  A name without a dot fails validation in both
    roles.  For a name whose last path component has a character other than
    a dot before its last dot, the extension is the text from the last dot
    on, whatever precedes it: the name passes in the image role exactly when
    that suffix is, in lower case, one of the image extensions, and likewise
    in the audio role.  For a name whose last path component starts with its
    last dot, or with a run of dots that ends in its last dot, the extension
    is empty whatever follows the dot, and the name fails validation in both
    roles. *)
Theorem final_suffix_decides (os : flavour) :
  (∀ name other,
     contains name dot = false →
     validate os name other = InvalidImage
     ∧ validate os other name ≠ Valid)
  ∧ (∀ pre x post suf,
       let name := pre +:+ String x post +:+ String dot suf in
       x ≠ dot →
       has_sep os (String x (post +:+ suf)) = false →
       contains suf dot = false →
       (splitext os name).2 = final_suffix name
       ∧ final_suffix name = String dot suf
       ∧ (∀ other,
            Py.elem (Py.lower (String dot suf)) image_exts = true ↔
            validate os name other ≠ InvalidImage)
       ∧ (∀ other,
            validate os other name ≠ InvalidImage →
            (Py.elem (Py.lower (String dot suf)) audio_exts = true ↔
             validate os other name = Valid)))
  ∧ (∀ dir k suf other,
       let name := dir +:+ replicate_char k dot +:+ String dot suf in
       is_dir_prefix os dir →
       has_sep os suf = false →
       contains suf dot = false →
       final_suffix name = String dot suf
       ∧ (splitext os name).2 = EmptyString
       ∧ validate os name other = InvalidImage
       ∧ validate os other name ≠ Valid).
Proof.
  assert (Hempty : ∀ name other,
    (splitext os name).2 = EmptyString →
    validate os name other = InvalidImage
    ∧ validate os other name ≠ Valid).
  { intros name other He. unfold validate, image_ext, audio_ext.
    rewrite He. cbn [Py.lower Py.elem existsb].
    split; [reflexivity|].
    destruct (negb _); [discriminate|]. cbn. discriminate. }
  split; [|split].
  - intros name other Hd. apply Hempty, splitext_no_dot, Hd.
  - intros pre x post suf name Hx Hs Hd.
    destruct (splitext_suffix os pre x post suf Hx Hs Hd) as [Hsplit Hfin].
    fold name in Hsplit, Hfin.
    split; [now rewrite Hsplit, Hfin|]. split; [exact Hfin|].
    unfold validate, image_ext, audio_ext. rewrite Hsplit. cbn [snd].
    split; intros other.
    + destruct (Py.elem (Py.lower (String dot suf)) image_exts); cbn [negb].
      * split; [|reflexivity]. intros _.
        destruct (negb _); discriminate.
      * split; [discriminate|]. intros H. now contradiction H.
    + destruct (Py.elem (Py.lower (splitext os other).2) image_exts);
        cbn [negb]; [|intros H; now contradiction H].
      intros _.
      destruct (Py.elem (Py.lower (String dot suf)) audio_exts); cbn [negb];
        split; intros H; first [reflexivity | discriminate].
  - intros dir k suf other name Hdir Hs Hd.
    destruct (splitext_leading_dots os dir k suf Hdir Hs Hd)
      as [Hsplit Hfin].
    fold name in Hsplit, Hfin. split; [exact Hfin|].
    assert (He : (splitext os name).2 = EmptyString) by now rewrite Hsplit.
    split; [exact He|]. apply Hempty, He.
Qed.

Lemma final_suffix_decides_witness :
  let name := "song.mp3.PNG" in
  (splitext Posix name).2 = ".PNG"
  ∧ validate Posix name "song.mp3" = Valid
  ∧ (splitext Nt "uploads/..png").2 = EmptyString
  ∧ validate Nt "uploads/..png" "song.mp3" = InvalidImage.
Proof.
  intros name.
  destruct (final_suffix_decides Posix) as (_ & H & _).
  destruct (H "song.mp" "3"%char EmptyString "PNG") as (Hs & Hf & Hi & _);
    [discriminate | reflexivity | reflexivity |].
  split; [exact (eq_trans Hs Hf)|]. split; [reflexivity|].
  destruct (final_suffix_decides Nt) as (_ & _ & Hdots).
  destruct (Hdots "uploads/" 1%nat "png" "song.mp3") as (_ & He & Hv & _).
  - right. exists "uploads", slash. split; [reflexivity|]. now right.
  - reflexivity.
  - reflexivity.
  - split; [exact He | exact Hv].
Defined.

(** The name [.png] ends in an accepted suffix and fails validation: its
    only dot leads the name, so [splitext] gives it no extension. *)
Lemma leading_dot_name_rejected :
  final_suffix ".png" = ".png"
  ∧ Py.elem (Py.lower (final_suffix ".png")) image_exts = true
  ∧ (splitext Posix ".png").2 = EmptyString
  ∧ validate Posix ".png" "song.mp3" = InvalidImage.
Proof. repeat split; reflexivity. Qed.

(** * The rest of the script *)

(** ** The two input paths of a job *)

Lemma take_drop n s : Py.take n s +:+ Py.drop n s = s.
Proof.
  revert s. induction n as [|n IH]; intros [|a s]; simpl; try reflexivity.
  now rewrite IH.
Qed.

(** [os.path.splitext]: root and extension concatenate to the name. *)
Lemma splitext_join os p : (splitext os p).1 +:+ (splitext os p).2 = p.
Proof.
  unfold splitext, _splitext.
  destruct (_ && _); cbn [fst snd].
  - apply take_drop.
  - induction p as [|a p IH]; simpl; [reflexivity | now rewrite IH].
Qed.

(** No extension is accepted in both roles. *)
Lemma exts_disjoint ext :
  Py.elem ext image_exts = true → Py.elem ext audio_exts = true → False.
Proof.
  rewrite !elem_true. intros Hi Ha.
  apply list_elem_of_In in Hi, Ha. cbn [image_exts audio_exts In] in Hi, Ha.
  destruct Hi as [<-|[<-|[<-|[]]]]; destruct Ha as [H|[H|[]]];
    discriminate H.
Qed.

Lemma valid_names_distinct os image_name audio_name :
  validate os image_name audio_name = Valid → image_name ≠ audio_name.
Proof.
  intros Hv. apply validate_valid in Hv. destruct Hv as [Hi Ha].
  intros ->. unfold image_ext, audio_ext in *.
  exact (exts_disjoint _ Hi Ha).
Qed.

Lemma input_paths_distinct os image_name audio_name unique_id :
  validate os image_name audio_name = Valid →
  temp_image_path unique_id image_name ≠ temp_audio_path unique_id audio_name.
Proof.
  intros Hv H. unfold temp_image_path, temp_audio_path in H.
  do 3 apply append_inv_head in H.
  exact (valid_names_distinct _ _ _ Hv H).
Qed.

(** X1 (lines 95-108).  When both extensions are accepted the two uploads have
    different names, so under any token the job's two input paths differ:
    the second write never overwrites the first upload. *)
Theorem valid_names_differ os image_name audio_name :
  validate os image_name audio_name = Valid →
  image_name ≠ audio_name
  ∧ ∀ unique_id,
      temp_image_path unique_id image_name
      ≠ temp_audio_path unique_id audio_name.
Proof.
  intros Hv.
  assert (Hne : image_name ≠ audio_name).
  { apply validate_valid in Hv. destruct Hv as [Hi Ha].
    intros ->. unfold image_ext, audio_ext in *.
    exact (exts_disjoint _ Hi Ha). }
  split; [exact Hne|]. intros unique_id H.
  unfold temp_image_path, temp_audio_path in H.
  do 3 apply append_inv_head in H. contradiction.
Qed.

Lemma valid_names_differ_witness :
  "cover.png" ≠ "song.mp3"
  ∧ ∀ unique_id,
      temp_image_path unique_id "cover.png"
      ≠ temp_audio_path unique_id "song.mp3".
Proof.
  apply (valid_names_differ Posix "cover.png" "song.mp3"). reflexivity.
Defined.

(** X2 (lines 95-100).  A pair of names passes validation only when each name
    ends in an extension that is, in lower case, accepted for its role: the
    name is its root followed by that extension. *)
Theorem valid_names_end_in_extension os image_name audio_name :
  validate os image_name audio_name = Valid →
  ∃ image_root image_suffix audio_root audio_suffix,
    image_name = image_root +:+ image_suffix
    ∧ Py.lower image_suffix ∈ [".png"; ".jpg"; ".jpeg"]
    ∧ audio_name = audio_root +:+ audio_suffix
    ∧ Py.lower audio_suffix ∈ [".mp3"; ".mpeg"].
Proof.
  intros Hv. apply validate_valid in Hv. destruct Hv as [Hi Ha].
  exists (splitext os image_name).1, (splitext os image_name).2,
         (splitext os audio_name).1, (splitext os audio_name).2.
  rewrite !splitext_join. apply elem_true in Hi, Ha. auto.
Qed.

Lemma valid_names_end_in_extension_witness :
  ∃ image_root image_suffix audio_root audio_suffix,
    "holiday.photo.JPG" = image_root +:+ image_suffix
    ∧ Py.lower image_suffix ∈ [".png"; ".jpg"; ".jpeg"]
    ∧ "track.Mpeg" = audio_root +:+ audio_suffix
    ∧ Py.lower audio_suffix ∈ [".mp3"; ".mpeg"].
Proof.
  apply (valid_names_end_in_extension Nt "holiday.photo.JPG" "track.Mpeg").
  reflexivity.
Defined.

(** ** [convert_image_to_video], outcome by outcome *)


(** ** The clean-up loop *)


(** X4 (lines 137-139).  When none of the listed paths exists the loop does
    nothing at all: [os.remove] is not called, so it cannot fault. *)
Theorem cleanup_of_nothing w paths s :
  (∀ p, p ∈ paths → fs s !! p = None) →
  remove_existing w paths s = (Ok tt, s).
Proof.
  revert s. induction paths as [|p paths IH]; intros s Hn; [reflexivity|].
  cbn [remove_existing]. unfold os_path_exists. mstep.
  rewrite (Hn p) by now left.
  replace (bool_decide (is_Some (@None bytes))) with false.
  - apply IH. intros q Hq. apply Hn. now right.
  - symmetry. apply bool_decide_eq_false. intros [x Hx]. discriminate Hx.
Qed.

Lemma cleanup_of_nothing_witness :
  remove_existing (sticky_world stub_absent)
    ["temp/a.png"; "temp/b.mp3"; "temp/output.mp4"] state0
  = (Ok tt, state0).
Proof.
  apply (cleanup_of_nothing (sticky_world stub_absent)
           ["temp/a.png"; "temp/b.mp3"; "temp/output.mp4"] state0).
  intros p _. apply lookup_empty.
Defined.

(** X5 (lines 137-139).  The loop is not best effort: it stops at the first
    removal that raises.  The paths before it are gone, the exception leaves
    the loop, and every other path, the faulting one and those after it
    included, is as it was. *)
Theorem cleanup_stops_at_fault w removed p rest s e :
  (∀ d, d ∈ removed → remove_fault w d = None) →
  p ∉ removed →
  is_Some (fs s !! p) →
  remove_fault w p = Some e →
  let r := remove_existing w (removed ++ p :: rest) s in
  r.1 = Raise e
  ∧ (∀ d, d ∈ removed → fs r.2 !! d = None)
  ∧ (∀ q, q ∉ removed → fs r.2 !! q = fs s !! q).
Proof.
  revert s. induction removed as [|d removed IH]; intros s Hok Hp Hex Hf.
  - cbn zeta. change ([] ++ p :: rest) with (p :: rest).
    cbn [remove_existing]. unfold os_path_exists. mstep.
    rewrite bool_decide_eq_true_2 by exact Hex.
    rewrite os_remove_eq, Hf. cbn [fst snd fs logged].
    split; [reflexivity|]. split; [|reflexivity].
    intros d Hd. inversion Hd.
  - apply not_elem_of_cons in Hp. destruct Hp as [Hpd Hp].
    assert (Hok' : ∀ x, x ∈ removed → remove_fault w x = None)
      by (intros x Hx; apply Hok; now right).
    cbn zeta.
    change ((d :: removed) ++ p :: rest) with (d :: (removed ++ p :: rest)).
    cbn [remove_existing]. unfold os_path_exists. mstep.
    destruct (bool_decide (is_Some (fs s !! d))) eqn:Hd.
    + rewrite os_remove_eq, (Hok d) by now left.
      match goal with |- context [remove_existing w _ ?t] =>
        specialize (IH t Hok' Hp) end.
      cbn [fs] in IH. rewrite lookup_delete_ne in IH by congruence.
      specialize (IH Hex Hf). cbn zeta in IH.
      destruct IH as (Hr & Hgone & Hkeep).
      split; [exact Hr|]. split.
      * intros x Hx. apply list_elem_of_In in Hx. destruct Hx as [<-|Hx].
        -- destruct (decide (d ∈ removed)) as [Hin|Hnin];
             [now apply Hgone|].
           rewrite Hkeep by exact Hnin. apply lookup_delete_eq.
        -- apply Hgone. now apply list_elem_of_In.
      * intros q Hq. apply not_elem_of_cons in Hq. destruct Hq as [Hqd Hq].
        rewrite Hkeep by exact Hq. now apply lookup_delete_ne.
    + specialize (IH s Hok' Hp Hex Hf). cbn zeta in IH.
      destruct IH as (Hr & Hgone & Hkeep).
      split; [exact Hr|]. split.
      * intros x Hx. apply list_elem_of_In in Hx. destruct Hx as [<-|Hx].
        -- destruct (decide (d ∈ removed)) as [Hin|Hnin];
             [now apply Hgone|].
           rewrite Hkeep by exact Hnin.
           apply bool_decide_eq_false in Hd.
           destruct (fs s !! d) eqn:E; [exfalso; apply Hd; eauto|reflexivity].
        -- apply Hgone. now apply list_elem_of_In.
      * intros q Hq. apply not_elem_of_cons in Hq. destruct Hq as [_ Hq].
        now apply Hkeep.
Qed.

Lemma cleanup_stops_at_fault_witness :
  let s := mkState {[ "temp/a.png" := [Byte.x01];
                      "temp/b.mp3" := [Byte.x02] ]} [] [] in
  let r := remove_existing (sticky_world stub_absent)
             ["temp/a.png"; "temp/b.mp3"] s in
  r.1 = Raise (OSError "Device or resource busy")
  ∧ fs r.2 !! "temp/a.png" = Some [Byte.x01]
  ∧ fs r.2 !! "temp/b.mp3" = Some [Byte.x02].
Proof.
  intros s r.
  destruct (cleanup_stops_at_fault (sticky_world stub_absent) []
              "temp/a.png" ["temp/b.mp3"] s
              (OSError "Device or resource busy"))
    as (Hr & _ & Hkeep).
  - intros d Hd. inversion Hd.
  - intros Hd. inversion Hd.
  - eexists. reflexivity.
  - reflexivity.
  - split; [exact Hr|].
    assert (Hnil : ∀ q : string, q ∉ @nil string)
      by (intros q Hq; inversion Hq).
    split; (etrans; [apply Hkeep, Hnil | reflexivity]).
Defined.

(** ** The job, outcome by outcome *)

(** [run_job] when one of the two writes raises. *)
Lemma run_job_unfold w img aud br s :
  let ip := temp_image_path (job_id w) (name img) in
  let ap := temp_audio_path (job_id w) (name aud) in
  run_job w img aud br s =
  match write_outcome w ip (getbuffer img) with
  | IoOpenError e =>
      (Raise e, mkState (fs s) (syslog s ++ [EvOpenW ip])
                  (page s ++ [Progress 0]))
  | IoWriteError e written =>
      (Raise e, mkState (<[ip := written]> (fs s)) (syslog s ++ [EvOpenW ip])
                  (page s ++ [Progress 0]))
  | IoOk =>
      match write_outcome w ap (getbuffer aud) with
      | IoOpenError e =>
          (Raise e, mkState (<[ip := getbuffer img]> (fs s))
                      (syslog s ++ [EvOpenW ip; EvOpenW ap])
                      (page s ++ [Progress 0]))
      | IoWriteError e written =>
          (Raise e, mkState (<[ap := written]>
                               (<[ip := getbuffer img]> (fs s)))
                      (syslog s ++ [EvOpenW ip; EvOpenW ap])
                      (page s ++ [Progress 0]))
      | IoOk => run_job w img aud br s
      end
  end.
Proof.
  intros ip ap.
  destruct (write_outcome w ip (getbuffer img)) as [|e|e wr] eqn:Hi;
    [destruct (write_outcome w ap (getbuffer aud)) as [|e|e wr] eqn:Ha;
       [reflexivity | | ] | | ];
    unfold run_job; fold (job_id w); fold ip ap; mstep;
    rewrite write_file_eq, Hi; unfold logged; cbn [fs syslog page];
    try reflexivity;
    rewrite write_file_eq, Ha; unfold logged; cbn [fs syslog page];
    rewrite <- app_assoc; reflexivity.
Qed.

Lemma convert_page w ip ap op br s :
  page (convert_image_to_video w ip ap op br s).2 = page s.
Proof.
  rewrite convert_eq. cbn zeta.
  destruct (spawn w _ (fs s)) as [[]|rc out err f']; reflexivity.
Qed.

(** A reported success comes from a child that exited with status 0, whose
    file system is the one the function leaves. *)
Lemma convert_true w ip ap op br s message :
  (convert_image_to_video w ip ap op br s).1 = Ok (true, message) →
  ∃ stdout stderr,
    spawn w (ffmpeg_cmd ip ap op br) (fs s)
    = Exited 0 stdout stderr (fs (convert_image_to_video w ip ap op br s).2).
Proof.
  rewrite convert_eq. cbn zeta.
  destruct (spawn w _ (fs s)) as [[]|rc out err f']; try discriminate.
  unfold after_exit. cbn [fst snd fs].
  destruct (_translate_newlines w out); [|discriminate].
  destruct (_translate_newlines w err); [|discriminate].
  destruct (Z.eqb_spec rc 0) as [->|Hne]; [|discriminate].
  intros _. eauto.
Qed.

Lemma filter_exec_removals evs :
  Forall is_remove evs → List.filter is_exec evs = [].
Proof.
  induction 1 as [|ev evs [p ->] _ IH]; [reflexivity|]. exact IH.
Qed.



(** X7 (lines 124-132).  When the child process exits with status 0, its
    captured output decodes, and it left no file at the output path, the
    success message is shown, then opening the output raises
    [FileNotFoundError]: no download is offered, the exception leaves the
    script and the clean-up loop is not reached, so the file system stays as
    the child left it. *)
Theorem success_without_output w img aud bitrate s out err f' :
  let ip := temp_image_path (job_id w) (name img) in
  let ap := temp_audio_path (job_id w) (name aud) in
  let op := output_path (job_id w) in
  check_ffmpeg w = true →
  validate (os w) (name img) (name aud) = Valid →
  write_outcome w ip (getbuffer img) = IoOk →
  write_outcome w ap (getbuffer aud) = IoOk →
  spawn w (job_cmd w img aud bitrate) (fs (after_writes w img aud s))
  = Exited 0 out err f' →
  is_Some (decode w out) →
  is_Some (decode w err) →
  f' !! op = None →
  generate w (Some img) (Some aud) bitrate s
  = (Raise (FileNotFoundError op),
     mkState f'
       (syslog s ++ [EvOpenW ip; EvOpenW ap;
                     EvExec (job_cmd w img aud bitrate); EvOpenR op])
       (page s ++ [Progress 0; Progress 50; Progress 100;
                   Markdown msg_success])).
Proof.
  intros ip ap op Hc Hv Hi Ha Hs [so Ho] [se He] Hd.
  unfold job_cmd in *. fold ip ap op in Hs |- *.
  rewrite generate_started by assumption.
  rewrite run_job_eq by assumption. fold ip ap op.
  rewrite convert_eq. cbn zeta. rewrite Hs.
  unfold after_exit, _translate_newlines. rewrite Ho, He.
  cbn [Z.eqb fs syslog page].
  rewrite Hd. unfold after_writes. cbn [fs syslog page]. fold ip ap.
  rewrite <- !app_assoc. reflexivity.
Qed.

Lemma success_without_output_witness :
  let w := quiet_world (stub_failing 0 EmptyString EmptyString) in
  let r := generate w (Some cover_png) (Some song_mp3) "192k" state0 in
  r.1 = Raise (FileNotFoundError (output_path (job_id w)))
  ∧ page r.2 = [Progress 0; Progress 50; Progress 100; Markdown msg_success].
Proof.
  intros w r. subst r.
  rewrite (success_without_output w cover_png song_mp3 "192k" state0
             [] []
             (fs (after_writes w cover_png song_mp3 state0)));
    [split; reflexivity | reflexivity .. | now eexists | now eexists
    | reflexivity].
Defined.

(** X8 (lines 124-134).  In every run of the button handler, a download button
    appears on the page only in a job whose child process exited with
    status 0, and it then carries the contents the child left at the job's
    output path, under the name [output.mp4]. *)
Theorem download_only_on_success w image_file audio_file bitrate s :
  ∃ shown,
    page (generate w image_file audio_file bitrate s).2 = page s ++ shown
    ∧ ∀ label data file_name mime,
        DownloadButton label data file_name mime ∈ shown →
        ∃ img aud stdout stderr f',
          image_file = Some img ∧ audio_file = Some aud
          ∧ spawn w (job_cmd w img aud bitrate)
              (fs (after_writes w img aud s))
            = Exited 0 stdout stderr f'
          ∧ f' !! output_path (job_id w) = Some data
          ∧ label = "Download Video"
          ∧ file_name = "output.mp4"
          ∧ mime = "video/mp4".
Proof.
  assert (Hno : ∀ (t : state) (evs : list ui_event),
    page t = page s ++ evs →
    (∀ l d f m, DownloadButton l d f m ∉ evs) →
    ∃ shown, page t = page s ++ shown
      ∧ ∀ label data file_name mime,
          DownloadButton label data file_name mime ∈ shown →
          ∃ img aud stdout stderr f',
            image_file = Some img ∧ audio_file = Some aud
            ∧ spawn w (job_cmd w img aud bitrate)
                (fs (after_writes w img aud s))
              = Exited 0 stdout stderr f'
            ∧ f' !! output_path (job_id w) = Some data
            ∧ label = "Download Video"
            ∧ file_name = "output.mp4"
            ∧ mime = "video/mp4").
  { intros t evs Ht Hn. exists evs. split; [exact Ht|].
    intros l d f m Hin. now apply Hn in Hin. }
  assert (Hmd : ∀ evs : list ui_event,
    Forall (λ ev, ∀ l d f m, ev ≠ DownloadButton l d f m) evs →
    ∀ l d f m, DownloadButton l d f m ∉ evs).
  { intros evs Hf l d f m Hin. rewrite Forall_forall in Hf.
    apply list_elem_of_In in Hin. exact (Hf _ Hin l d f m eq_refl). }
  unfold generate.
  destruct image_file as [img|], audio_file as [aud|];
    try (apply (Hno _ [Markdown msg_upload_both]); [reflexivity|];
         apply Hmd; repeat constructor; discriminate).
  destruct (check_ffmpeg w); cbn [negb];
    [| apply (Hno _ [Markdown msg_cannot_proceed]); [reflexivity|];
       apply Hmd; repeat constructor; discriminate].
  destruct (validate _ _ _);
    [ apply (Hno _ [Markdown msg_invalid_image]); [reflexivity|];
      apply Hmd; repeat constructor; discriminate
    | apply (Hno _ [Markdown msg_invalid_audio]); [reflexivity|];
      apply Hmd; repeat constructor; discriminate
    | ].
  set (ip := temp_image_path (job_id w) (name img)).
  set (ap := temp_audio_path (job_id w) (name aud)).
  set (op := output_path (job_id w)).
  rewrite run_job_unfold. fold ip ap.
  destruct (write_outcome w ip (getbuffer img)) as [|e|e wr] eqn:Hi;
    [| apply (Hno _ [Progress 0]); [reflexivity|];
       apply Hmd; repeat constructor; discriminate ..].
  destruct (write_outcome w ap (getbuffer aud)) as [|e|e wr] eqn:Ha;
    [| apply (Hno _ [Progress 0]); [reflexivity|];
       apply Hmd; repeat constructor; discriminate ..].
  rewrite run_job_eq by assumption. fold ip ap op.
  pose proof (convert_page w ip ap op bitrate (after_writes w img aud s))
    as Hpg.
  pose proof (convert_true w ip ap op bitrate (after_writes w img aud s))
    as Htrue.
  destruct (convert_image_to_video w ip ap op bitrate _)
    as [[[[] msg]|e] s3]; cbn [fst snd] in Hpg, Htrue.
  - destruct (Htrue msg eq_refl) as (out & err & Hs). cbn zeta.
    destruct (fs s3 !! op) as [data|] eqn:Hd;
      [destruct (read_fault w op) as [e|]|].
    + apply (Hno _ [Progress 0; Progress 50; Progress 100;
                    Markdown msg_success]).
      * cbn [snd page]. rewrite Hpg. unfold after_writes. cbn [page].
        rewrite <- !app_assoc. reflexivity.
      * apply Hmd; repeat constructor; discriminate.
    + match goal with |- context [remove_existing w ?ps ?t] =>
        destruct (remove_existing_inv w ps t) as (Hp & _) end.
      exists [Progress 0; Progress 50; Progress 100; Markdown msg_success;
              DownloadButton "Download Video" data "output.mp4" "video/mp4"].
      split.
      * rewrite Hp. cbn [page]. rewrite Hpg. unfold after_writes.
        cbn [page]. rewrite <- !app_assoc. reflexivity.
      * intros l d f m Hin. apply list_elem_of_In in Hin. cbn [In] in Hin.
        destruct Hin as [H|[H|[H|[H|[H|[]]]]]]; try discriminate H.
        injection H as <- <- <- <-.
        exists img, aud, out, err, (fs s3). unfold job_cmd.
        fold ip ap op. auto 10.
    + apply (Hno _ [Progress 0; Progress 50; Progress 100;
                    Markdown msg_success]).
      * cbn [snd page]. rewrite Hpg. unfold after_writes. cbn [page].
        rewrite <- !app_assoc. reflexivity.
      * apply Hmd; repeat constructor; discriminate.
  - match goal with |- context [remove_existing w ?ps ?t] =>
      destruct (remove_existing_inv w ps t) as (Hp & _) end.
    apply (Hno _ [Progress 0; Progress 50; Progress 100;
                  Markdown (p_class "error-message" msg)]).
    + rewrite Hp. cbn [page]. rewrite Hpg. unfold after_writes. cbn [page].
      rewrite <- !app_assoc. reflexivity.
    + apply Hmd; repeat constructor; discriminate.
  - apply (Hno _ [Progress 0; Progress 50]).
    + cbn [snd]. rewrite Hpg. reflexivity.
    + apply Hmd; repeat constructor; discriminate.
Qed.



(** X10 (lines 110-119).  In every run of the button handler the external tool is
    started at most once (no retry); it is not started at all when writing
    an upload raised; and in a started job whose uploads were both written
    it is started exactly once, with the job's command line. *)
Theorem tool_started_at_most_once w image_file audio_file bitrate s :
  ∃ evs,
    syslog (generate w image_file audio_file bitrate s).2 = syslog s ++ evs
    ∧ (length (List.filter is_exec evs) ≤ 1)%nat
    ∧ (∀ img aud e,
         image_file = Some img → audio_file = Some aud →
         write_fails w img aud e → List.filter is_exec evs = [])
    ∧ (∀ img aud,
         image_file = Some img → audio_file = Some aud →
         check_ffmpeg w = true →
         validate (os w) (name img) (name aud) = Valid →
         write_outcome w (temp_image_path (job_id w) (name img))
           (getbuffer img) = IoOk →
         write_outcome w (temp_audio_path (job_id w) (name aud))
           (getbuffer aud) = IoOk →
         List.filter is_exec evs = [EvExec (job_cmd w img aud bitrate)]).
Proof.
  match goal with |- ∃ evs, _ ∧ @?P evs => set (Q := P) end.
  assert (Hnone : ∀ (t : state) (evs : list sys_event),
    syslog t = syslog s ++ evs → List.filter is_exec evs = [] →
    (∀ img aud, image_file = Some img → audio_file = Some aud →
       check_ffmpeg w = true →
       validate (os w) (name img) (name aud) = Valid →
       write_outcome w (temp_image_path (job_id w) (name img))
         (getbuffer img) = IoOk →
       write_outcome w (temp_audio_path (job_id w) (name aud))
         (getbuffer aud) = IoOk → False) →
    ∃ evs', syslog t = syslog s ++ evs' ∧ Q evs').
  { intros t evs Ht Hf Habs. exists evs. split; [exact Ht|].
    unfold Q. rewrite Hf. split; [cbn; lia|]. split; [reflexivity|].
    intros img aud H1 H2 H3 H4 H5 H6. exfalso. eauto. }
  unfold generate.
  destruct image_file as [img|], audio_file as [aud|];
    try (apply (Hnone _ []); [cbn; now rewrite app_nil_r | reflexivity |];
         intros ? ? ? ?; discriminate).
  destruct (check_ffmpeg w) eqn:Hc; cbn [negb];
    [| apply (Hnone _ []); [cbn; now rewrite app_nil_r | reflexivity |];
       intros ? ? _ _ ?; congruence].
  destruct (validate (os w) (name img) (name aud)) eqn:Hv;
    [ apply (Hnone _ []); [cbn; now rewrite app_nil_r | reflexivity |];
      intros ? ? H1 H2 _ Hv'; injection H1 as <-; injection H2 as <-;
      congruence ..
    | ].
  set (ip := temp_image_path (job_id w) (name img)).
  set (ap := temp_audio_path (job_id w) (name aud)).
  set (op := output_path (job_id w)).
  rewrite run_job_unfold. fold ip ap.
  destruct (write_outcome w ip (getbuffer img)) as [|e|e wr] eqn:Hi;
    [| apply (Hnone _ [EvOpenW ip]); [reflexivity | reflexivity |];
       intros ? ? H1 H2 _ _ Hi' _; injection H1 as <-; injection H2 as <-;
       fold ip in Hi'; congruence ..].
  destruct (write_outcome w ap (getbuffer aud)) as [|e|e wr] eqn:Ha;
    [| apply (Hnone _ [EvOpenW ip; EvOpenW ap]);
       [reflexivity | reflexivity |];
       intros ? ? H1 H2 _ _ _ Ha'; injection H1 as <-; injection H2 as <-;
       fold ap in Ha'; congruence ..].
  assert (Hone : ∀ (t : state) (tail : list sys_event),
    syslog t = syslog s ++ [EvOpenW ip; EvOpenW ap;
                            EvExec (job_cmd w img aud bitrate)] ++ tail →
    List.filter is_exec tail = [] →
    ∃ evs', syslog t = syslog s ++ evs' ∧ Q evs').
  { intros t tail Ht Hf.
    exists ([EvOpenW ip; EvOpenW ap; EvExec (job_cmd w img aud bitrate)]
            ++ tail).
    split; [exact Ht|]. unfold Q.
    rewrite List.filter_app, Hf.
    change (List.filter is_exec
              [EvOpenW ip; EvOpenW ap; EvExec (job_cmd w img aud bitrate)])
      with [EvExec (job_cmd w img aud bitrate)].
    split; [cbn; lia|]. split.
    - intros img' aud' e H1 H2 Hw. injection H1 as <-. injection H2 as <-.
      unfold write_fails in Hw. fold ip ap in Hw. rewrite Hi, Ha in Hw.
      destruct Hw as [Hw|[_ Hw]]; discriminate Hw.
    - intros img' aud' H1 H2 _ _ _ _. injection H1 as <-.
      injection H2 as <-. reflexivity. }
  rewrite run_job_eq by assumption. fold ip ap op.
  pose proof (convert_log w ip ap op bitrate (after_writes w img aud s))
    as Hlog.
  change (ffmpeg_cmd ip ap op bitrate) with (job_cmd w img aud bitrate)
    in Hlog.
  assert (Hlog' : syslog (convert_image_to_video w ip ap op bitrate
                            (after_writes w img aud s)).2
                  = syslog s ++ [EvOpenW ip; EvOpenW ap;
                                 EvExec (job_cmd w img aud bitrate)]).
  { rewrite Hlog. unfold after_writes. cbn [syslog]. fold ip ap.
    now rewrite <- app_assoc. }
  clear Hlog.
  destruct (convert_image_to_video w ip ap op bitrate _)
    as [[[[] msg]|e] s3]; cbn [snd] in Hlog'.
  - cbn zeta.
    destruct (fs s3 !! op) as [data|]; [destruct (read_fault w op)|].
    + apply (Hone _ [EvOpenR op]); [|reflexivity].
      cbn [snd syslog]. rewrite Hlog', <- !app_assoc. reflexivity.
    + match goal with |- context [remove_existing w ?ps ?t] =>
        destruct (remove_existing_inv w ps t) as (_ & _ & rm & Hl & Hr) end.
      cbn [syslog] in Hl.
      apply (Hone _ (EvOpenR op :: rm)).
      * rewrite Hl, Hlog', <- !app_assoc. reflexivity.
      * cbn. now apply filter_exec_removals.
    + apply (Hone _ [EvOpenR op]); [|reflexivity].
      cbn [snd syslog]. rewrite Hlog', <- !app_assoc. reflexivity.
  - match goal with |- context [remove_existing w ?ps ?t] =>
      destruct (remove_existing_inv w ps t) as (_ & _ & rm & Hl & Hr) end.
    cbn [syslog] in Hl.
    apply (Hone _ rm); [|now apply filter_exec_removals].
    rewrite Hl, Hlog', <- !app_assoc. reflexivity.
  - apply (Hone _ []); [|reflexivity].
    cbn [snd]. rewrite Hlog'. reflexivity.
Qed.

Lemma tool_started_at_most_once_witness :
  let w := quiet_world (stub_failing 1 EmptyString "X") in
  ∃ evs,
    syslog (generate w (Some cover_png) (Some song_mp3) "128k" state0).2
    = evs
    ∧ List.filter is_exec evs
      = [EvExec (job_cmd w cover_png song_mp3 "128k")].
Proof.
  intros w.
  destruct (tool_started_at_most_once w (Some cover_png) (Some song_mp3)
              "128k" state0) as (evs & Hl & _ & _ & Hone).
  exists evs. split; [exact Hl|].
  apply (Hone cover_png song_mp3); reflexivity.
Defined.

(** ** Runs that start no job *)

(** When no job is started the button handler only shows a refusal. *)
Lemma generate_refusal w image_file audio_file bitrate s :
  ¬ started w image_file audio_file →
  ∃ m, generate w image_file audio_file bitrate s
       = (Ok tt, mkState (fs s) (syslog s) (page s ++ [Markdown m])).
Proof.
  intros Hn. unfold generate.
  destruct image_file as [img|], audio_file as [aud|]; eauto.
  destruct (check_ffmpeg w) eqn:Hc; cbn [negb]; eauto.
  destruct (validate (os w) (name img) (name aud)) eqn:Hv; eauto.
  exfalso. apply Hn. exists img, aud. auto.
Qed.

(** X11 (lines 9-101 and 141-143).  A run of the script in which the button
    was not pressed, or in which no job is started (an upload is missing,
    [ffmpeg] is not on the path or an extension is refused), makes one
    system call at most, [os.makedirs("temp")], and that exactly when [temp]
    does not exist; the file system is unchanged but for the directory
    created; and the run ends normally unless [os.makedirs] or the image
    preview raises, in which case it ends in that exception. *)
Theorem run_without_job w ss s :
  ¬ (generate_clicked ss = true
     ∧ started w (image_upload ss) (audio_upload ss)) →
  let r := app w ss s in
  let present := bool_decide (is_Some (fs s !! "temp")) in
  r.1 = match page_fault w ss s with
        | Some e => Raise e
        | None => Ok tt
        end
  ∧ syslog r.2 = syslog s ++ (if present then [] else [EvMakedirs "temp"])
  ∧ fs r.2 = if present then fs s
             else match makedirs_fault w "temp" with
                  | Some _ => fs s
                  | None => <["temp" := []]> (fs s)
                  end.
Proof.
  intros Hn.
  assert (Hgen : generate_clicked ss = true → ∀ t,
    ∃ m, generate w (image_upload ss) (audio_upload ss)
           (selectbox bitrate_options (bitrate_pick ss)) t
         = (Ok tt, mkState (fs t) (syslog t) (page t ++ [Markdown m]))).
  { intros Hc t. apply generate_refusal. intros Hs. apply Hn. now split. }
  clear Hn. cbn zeta.
  unfold page_fault, app, markdown, ensure_temp, os_path_exists, os_makedirs,
    st_image.
  remember (image_upload ss) as iu eqn:Eiu.
  remember (audio_upload ss) as au eqn:Eau.
  mstep.
  destruct (bool_decide (is_Some (fs s !! "temp")));
    [|destruct (makedirs_fault w "temp")];
    mstep; rewrite ?app_nil_r; try (repeat split; reflexivity);
    destruct (check_ffmpeg w); cbn [negb];
    (destruct iu as [img|];
       [destruct (image_fault w (getbuffer img))|]);
    mstep; try (repeat split; reflexivity);
    destruct au as [aud|];
    mstep;
    (destruct (generate_clicked ss);
       [ match goal with |- context [generate w ?a ?b ?c ?t] =>
           destruct (Hgen eq_refl t) as (m & Hg); rewrite Hg
         end
       | ]);
    repeat split; reflexivity.
Qed.

Lemma run_without_job_witness :
  (app (quiet_world stub_denied) idle_session state0).1 = Ok tt
  ∧ syslog (app (quiet_world stub_denied) idle_session state0).2
    = [EvMakedirs "temp"]
  ∧ fs (app (quiet_world stub_denied) idle_session state0).2
    = {[ "temp" := [] ]}
  ∧ (app (no_codec_world stub_denied) preview_session state0).1
    = Raise (PyException "UnidentifiedImageError"
               "cannot identify image file").
Proof.
  assert (Hidle : ∀ w ss,
    generate_clicked ss = false →
    ¬ (generate_clicked ss = true
       ∧ started w (image_upload ss) (audio_upload ss))).
  { intros w ss H [Hc _]. rewrite H in Hc. discriminate Hc. }
  destruct (run_without_job (quiet_world stub_denied) idle_session state0
              (Hidle (quiet_world stub_denied) idle_session eq_refl))
    as (H1 & H2 & H3).
  destruct (run_without_job (no_codec_world stub_denied) preview_session
              state0
              (Hidle (no_codec_world stub_denied) preview_session eq_refl))
    as (H4 & _).
  split; [exact H1|]. split; [exact H2|]. split; [exact H3|]. exact H4.
Defined.

(** ** Tokens, again *)

(** X12 (lines 105-108).  The token is an injective rendering of the UUID: two
    jobs whose [uuid4] values differ have different tokens, and their paths
    are pairwise distinct whatever the uploads are called. *)
Theorem distinct_uuids_distinct_paths (r1 r2 : N)
    (image1 audio1 image2 audio2 : string) :
  Uuid.uuid4 r1 ≠ Uuid.uuid4 r2 →
  Uuid.str (Uuid.uuid4 r1) ≠ Uuid.str (Uuid.uuid4 r2)
  ∧ ∀ p q,
      p ∈ job_paths (Uuid.str (Uuid.uuid4 r1)) image1 audio1 →
      q ∈ job_paths (Uuid.str (Uuid.uuid4 r2)) image2 audio2 →
      p ≠ q.
Proof.
  intros Hne.
  assert (Htok : Uuid.str (Uuid.uuid4 r1) ≠ Uuid.str (Uuid.uuid4 r2)).
  { intros H. apply Hne, str_inj; [apply uuid4_bound .. | exact H]. }
  split; [exact Htok|].
  intros p q Hp Hq. unfold job_paths in Hp, Hq.
  apply list_elem_of_In in Hp, Hq. cbn [In] in Hp, Hq.
  destruct Hp as [<-|[<-|[<-|[]]]]; destruct Hq as [<-|[<-|[<-|[]]]];
    first [ exact (temp_paths_distinct _ _ _ _ Htok)
          | exact (output_paths_distinct _ _ Htok)
          | exact (temp_not_output _ _ _)
          | exact (not_eq_sym (temp_not_output _ _ _)) ].
Qed.

Lemma distinct_uuids_distinct_paths_witness :
  Uuid.str (Uuid.uuid4 7) ≠ Uuid.str (Uuid.uuid4 8)
  ∧ ∀ p q,
      p ∈ job_paths (Uuid.str (Uuid.uuid4 7)) "a.png" "a.mp3" →
      q ∈ job_paths (Uuid.str (Uuid.uuid4 8)) "a.png" "a.mp3" →
      p ≠ q.
Proof.
  apply (distinct_uuids_distinct_paths 7 8 "a.png" "a.mp3" "a.png" "a.mp3").
  intros H. vm_compute in H. discriminate H.
Defined.

(** X13 (lines 95-108).  In a started job the three paths are pairwise distinct:
    the writes clobber neither each other nor the output, and the clean-up
    list names three different files. *)
Theorem job_paths_nodup w img aud :
  validate (os w) (name img) (name aud) = Valid →
  NoDup (job_paths (job_id w) (name img) (name aud)).
Proof.
  intros Hv. unfold job_paths.
  pose proof (input_paths_distinct _ _ _ (job_id w) Hv) as Hia.
  destruct (input_paths_not_output w img aud) as [Hio Hao].
  constructor.
  - intros H. apply list_elem_of_In in H. cbn [In] in H.
    destruct H as [H|[H|[]]]; [now apply Hia | now apply Hio].
  - constructor.
    + intros H. apply list_elem_of_In in H. cbn [In] in H.
      destruct H as [H|[]]. now apply Hao.
    + constructor; [|constructor]. intros H. inversion H.
Qed.

Lemma job_paths_nodup_witness :
  NoDup (job_paths (job_id (quiet_world stub_absent)) "cover.png" "song.mp3").
Proof.
  apply (job_paths_nodup (quiet_world stub_absent) cover_png song_mp3).
  reflexivity.
Defined.

(** ** Validation and the case of letters *)

(** Lower-casing maps no character to or from a dot or a separator. *)
Lemma lower_char_keeps (c a : ascii) :
  c = dot ∨ c = slash ∨ c = backslash →
  Ascii.eqb (Py.lower_char a) c = Ascii.eqb a c.
Proof.
  intros [->|[->| ->]];
    destruct a as [[] [] [] [] [] [] [] []]; reflexivity.
Qed.

Lemma rfind_lower s c :
  c = dot ∨ c = slash ∨ c = backslash →
  Py.rfind (Py.lower s) c = Py.rfind s c.
Proof.
  intros Hc. induction s as [|a s IH]; cbn [Py.lower Py.rfind]; [reflexivity|].
  now rewrite IH, lower_char_keeps.
Qed.

Lemma take_lower n s : Py.take n (Py.lower s) = Py.lower (Py.take n s).
Proof.
  revert s. induction n as [|n IH]; intros [|a s]; simpl; try reflexivity.
  now rewrite IH.
Qed.

Lemma drop_lower n s : Py.drop n (Py.lower s) = Py.lower (Py.drop n s).
Proof.
  revert s. induction n as [|n IH]; intros [|a s]; simpl; try reflexivity.
  apply IH.
Qed.

Lemma is_dot_lower s :
  String.eqb (Py.lower s) (String dot EmptyString)
  = String.eqb s (String dot EmptyString).
Proof.
  destruct s as [|a [|b s]]; cbn [Py.lower String.eqb]; try reflexivity.
  - rewrite lower_char_keeps by now left. reflexivity.
  - rewrite lower_char_keeps by now left. reflexivity.
Qed.

Lemma scan_lower p i n :
  splitext_scan (Py.lower p) dot i n = splitext_scan p dot i n.
Proof.
  revert i. induction n as [|n IH]; intros i; cbn [splitext_scan];
    [reflexivity|].
  unfold Py.slice. rewrite drop_lower, take_lower, is_dot_lower, IH.
  reflexivity.
Qed.

(** [splitext] commutes with lower-casing. *)
Lemma splitext_lower os p :
  splitext os (Py.lower p)
  = (Py.lower (splitext os p).1, Py.lower (splitext os p).2).
Proof.
  unfold splitext, _splitext, extsep.
  rewrite (rfind_lower p dot) by now left.
  assert (Hsep : Py.rfind (Py.lower p) (sep os) = Py.rfind p (sep os))
    by (apply rfind_lower; destruct os; auto).
  rewrite Hsep.
  assert (Halt : match altsep os with
                 | Some a => Z.max (Py.rfind p (sep os))
                               (Py.rfind (Py.lower p) a)
                 | None => Py.rfind p (sep os)
                 end
                 = match altsep os with
                   | Some a => Z.max (Py.rfind p (sep os)) (Py.rfind p a)
                   | None => Py.rfind p (sep os)
                   end).
  { destruct os; cbn [altsep]; [reflexivity|].
    rewrite (rfind_lower p slash) by auto. reflexivity. }
  rewrite Halt, scan_lower.
  destruct (_ && _); cbn [fst snd]; [|reflexivity].
  now rewrite take_lower, drop_lower.
Qed.

(** X14 (lines 95-100).  Validation ignores the case of letters in the whole of
    both names: two pairs of names that differ only in case are both
    accepted or both refused, and for the same reason. *)
Theorem validation_ignores_case os image1 audio1 image2 audio2 :
  eq_nocase image1 image2 →
  eq_nocase audio1 audio2 →
  validate os image1 audio1 = validate os image2 audio2.
Proof.
  unfold eq_nocase. intros Hi Ha.
  apply eqb_nocase_lower in Hi, Ha.
  assert (Hext : ∀ p q, Py.lower p = Py.lower q →
            Py.lower (splitext os p).2 = Py.lower (splitext os q).2).
  { intros p q Hpq.
    assert (H : ∀ x, Py.lower (splitext os x).2
                     = Py.lower (splitext os (Py.lower x)).2)
      by (intros x; rewrite splitext_lower; cbn [snd];
          now rewrite lower_idem).
    now rewrite (H p), (H q), Hpq. }
  unfold validate, image_ext, audio_ext.
  now rewrite (Hext _ _ Hi), (Hext _ _ Ha).
Qed.

Lemma validation_ignores_case_witness :
  validate Nt "Cover.PNG" "SONG.Mp3" = validate Nt "cover.png" "song.mp3".
Proof.
  apply (validation_ignores_case Nt "Cover.PNG" "SONG.Mp3"
           "cover.png" "song.mp3"); reflexivity.
Defined.

(** ** How a job can end *)

(** A loop that ends normally has removed every listed path. *)
Lemma remove_existing_clean w paths s :
  (remove_existing w paths s).1 = Ok tt →
  ∀ p, p ∈ paths → fs (remove_existing w paths s).2 !! p = None.
Proof.
  revert s. induction paths as [|p paths IH]; intros s Hok q Hq;
    [inversion Hq|].
  revert Hok. cbn [remove_existing]. unfold os_path_exists. mstep.
  destruct (bool_decide (is_Some (fs s !! p))) eqn:Hex.
  - rewrite os_remove_eq. destruct (remove_fault w p) as [e|];
      [intros H; discriminate H|].
    intros Hok. apply list_elem_of_In in Hq. destruct Hq as [<-|Hq].
    + match goal with |- context [remove_existing w paths ?t] =>
        destruct (remove_existing_inv w paths t) as (_ & Hf & _) end.
      apply Hf. apply lookup_delete_eq.
    + apply IH; [exact Hok | now apply list_elem_of_In].
  - intros Hok. apply list_elem_of_In in Hq. destruct Hq as [<-|Hq].
    + destruct (remove_existing_inv w paths s) as (_ & Hf & _).
      apply Hf. apply bool_decide_eq_false in Hex.
      destruct (fs s !! p) eqn:E; [exfalso; apply Hex; eauto | reflexivity].
    + apply IH; [exact Hok | now apply list_elem_of_In].
Qed.

(** X15 (lines 102-139).  A started job that ends without an exception has
    cleaned up: none of its three paths exists afterwards, whatever the
    child process and the file system did in between. *)
Theorem normal_end_means_clean w img aud bitrate s :
  check_ffmpeg w = true →
  validate (os w) (name img) (name aud) = Valid →
  (generate w (Some img) (Some aud) bitrate s).1 = Ok tt →
  ∀ p, p ∈ job_paths (job_id w) (name img) (name aud) →
       fs (generate w (Some img) (Some aud) bitrate s).2 !! p = None.
Proof.
  intros Hc Hv. rewrite generate_started by assumption.
  set (ip := temp_image_path (job_id w) (name img)).
  set (ap := temp_audio_path (job_id w) (name aud)).
  set (op := output_path (job_id w)).
  unfold job_paths. fold ip ap op.
  rewrite run_job_unfold. fold ip ap.
  destruct (write_outcome w ip (getbuffer img)) as [|e|e wr] eqn:Hi;
    [| intros H; discriminate H ..].
  destruct (write_outcome w ap (getbuffer aud)) as [|e|e wr] eqn:Ha;
    [| intros H; discriminate H ..].
  rewrite run_job_eq by assumption. fold ip ap op.
  destruct (convert_image_to_video w ip ap op bitrate _)
    as [[[[] msg]|e] s3]; [| | intros H; discriminate H].
  - cbn zeta.
    destruct (fs s3 !! op) as [data|]; [|intros H; discriminate H].
    destruct (read_fault w op); [intros H; discriminate H|].
    apply remove_existing_clean.
  - apply remove_existing_clean.
Qed.

Lemma normal_end_means_clean_witness :
  let w := quiet_world (stub_failing 2 EmptyString "bad input") in
  let r := generate w (Some cover_png) (Some song_mp3) "256k" state0 in
  fs r.2 !! temp_image_path (job_id w) "cover.png" = None
  ∧ fs r.2 !! temp_audio_path (job_id w) "song.mp3" = None
  ∧ fs r.2 !! output_path (job_id w) = None.
Proof.
  intros w r.
  pose proof (normal_end_means_clean w cover_png song_mp3 "256k" state0
                eq_refl eq_refl eq_refl) as H.
  repeat split; apply H; apply list_elem_of_In; cbn; auto.
Defined.


